(** * RoomEnv: a vase gridworld as a finite deterministic MDP

    Shallow embedding of [src/envs/room.py] (classes [RoomState] and
    [RoomEnv]) and the properties of its state enumeration, index tables,
    transition function and feature extractor.

    Conventions:
    - Python integers are [Z]; a position tuple [(x, y)] is a pair [Z * Z].
    - A Python [dict] is an association list in insertion order (module
      [PyDict]); writing to a present key keeps its slot, writing to an
      absent key appends.  Key comparison is a parameter, because the
      tables of [RoomEnv] are keyed by [RoomState] objects and compared by
      [RoomState.__eq__].
    - A raised exception ([KeyError], [IndexError]) is [None] or a
      [KeyError] result. *)

From stdpp Require Import base option list sorting gmap strings.

Local Open Scope Z_scope.

(** ** Positions *)

Definition Pos : Type := Z * Z.

(** Tuple equality [(x1, y1) == (x2, y2)]. *)
Definition pos_eqb (p q : Pos) : bool := (p.1 =? q.1) && (p.2 =? q.2).

(** Tuple ordering [p <= q], lexicographic, as used by [sorted]. *)
Definition pos_leb (p q : Pos) : bool :=
  (p.1 <? q.1) || ((p.1 =? q.1) && (p.2 <=? q.2)).

Definition pos_le (p q : Pos) : Prop := pos_leb p q = true.

#[global] Instance pos_le_dec : RelDecision pos_le.
Proof. intros p q. unfold pos_le. apply _. Defined.

(** [range(n)] *)
Definition py_range (n : Z) : list Z := seqZ 0 n.

(** [sorted(keys)] on position tuples.  The keys of a dict are pairwise
    distinct and the order is total, so the sorted sequence is unique and
    any correct sorting algorithm returns what Python's does. *)
Definition sorted (l : list Pos) : list Pos := merge_sort pos_le l.

(** ** Python dictionaries *)

Module PyDict.
Section defs.
Context {K V : Type} (eqb : K → K → bool).

(** [d[k]], [None] standing for [KeyError].  A dict finds a key by its hash
    and then by [==]; keys that are [==] hash alike (for [RoomState] this
    is [hash_key_Permutation] below), so the search is the one by [==]. *)
Fixpoint get (d : list (K * V)) (k : K) : option V :=
  match d with
  | [] => None
  | (k', v) :: d' => if eqb k' k then Some v else get d' k
  end.

(** [k in d] *)
Definition contains (d : list (K * V)) (k : K) : bool :=
  match get d k with Some _ => true | None => false end.

(** [d[k] = v] *)
Fixpoint set (d : list (K * V)) (k : K) (v : V) : list (K * V) :=
  match d with
  | [] => [(k, v)]
  | (k', v') :: d' =>
      if eqb k' k then (k', v) :: d' else (k', v') :: set d' k v
  end.

Definition keys (d : list (K * V)) : list K := d.*1.
Definition values (d : list (K * V)) : list V := d.*2.

(** [dict(pairs)] and dict comprehensions: entries are written in order. *)
Definition of_pairs (l : list (K * V)) : list (K * V) :=
  fold_left (λ d kv, set d kv.1 kv.2) l [].

(** [d1 == d2]: same number of entries and every entry of [d1] is found,
    with an equal value, in [d2]. *)
Definition eq (veqb : V → V → bool) (d1 d2 : list (K * V)) : bool :=
  (length d1 =? length d2)%nat
  && forallb (λ kv, match get d2 kv.1 with
                    | Some v => veqb kv.2 v
                    | None => false
                    end) d1.
End defs.
End PyDict.

(** The invariant of every Python dict: no key occurs twice. *)
Definition dict_wf {K V} (d : list (K * V)) : Prop := NoDup d.*1.

(** ** RoomState *)

Record RoomState := mkRoomState {
  agent_pos : Pos;
  vase_states : list (Pos * bool)
}.

#[global] Instance RoomState_eq_dec : EqDecision RoomState.
Proof. solve_decision. Defined.

(** [RoomState.__eq__] (the [isinstance] test is the type). *)
Definition RoomState_eq (s o : RoomState) : bool :=
  pos_eqb (agent_pos s) (agent_pos o)
  && PyDict.eq pos_eqb Bool.eqb (vase_states s) (vase_states o).

(** Elements of the tuple handed to [hash]. *)
Inductive pyval := PyInt (z : Z) | PyBool (b : bool).

(** [get_vals] inside [RoomState.__hash__]. *)
Definition get_vals (dictionary : list (Pos * bool)) : option (list bool) :=
  mapM (PyDict.get pos_eqb dictionary) (sorted (PyDict.keys dictionary)).

(** The tuple [self.agent_pos + get_vals(self.vase_states)]. *)
Definition hash_key (s : RoomState) : option (list pyval) :=
  vals ← get_vals (vase_states s);
  Some ([PyInt (agent_pos s).1; PyInt (agent_pos s).2] ++ (PyBool <$> vals)).

(** [RoomState.__hash__], for a given hash function on tuples. *)
Definition RoomState_hash (hash : list pyval → Z) (s : RoomState) : option Z :=
  hash <$> hash_key s.

(** ** Direction *)

(** Modelled from the spec: the [Direction] utility of [envs/utils.py],
    which maps an integer action code to a movement delta and back, over
    the action set NORTH, SOUTH, EAST, WEST, STAY.  Row [y = 0] is the top
    of the grid, so that EAST then SOUTH leads from [(0,0)] to [(1,1)]. *)
Module Direction.
Inductive t := NORTH | SOUTH | EAST | WEST | STAY.

Definition delta (d : t) : Z * Z :=
  match d with
  | NORTH => (0, -1)
  | SOUTH => (0, 1)
  | EAST => (1, 0)
  | WEST => (-1, 0)
  | STAY => (0, 0)
  end.

Definition INDEX_TO_DIRECTION : list t := [NORTH; SOUTH; EAST; WEST; STAY].

Definition get_direction_from_number (number : Z) : option t :=
  if 0 <=? number then INDEX_TO_DIRECTION !! Z.to_nat number else None.

Definition get_number_from_direction (d : t) : Z :=
  match d with
  | NORTH => 0 | SOUTH => 1 | EAST => 2 | WEST => 3 | STAY => 4
  end.

Definition move_in_direction (point : Pos) (d : t) : Pos :=
  (point.1 + (delta d).1, point.2 + (delta d).2).

Definition move_in_direction_number (point : Pos) (num : Z) : option Pos :=
  move_in_direction point <$> get_direction_from_number num.
End Direction.

(** ** RoomEnv *)

Record RoomEnv := mkRoomEnv {
  height : Z;
  width : Z;
  vase_locations : list Pos;
  carpet_locations : gset Pos;
  feature_locations : list Pos
}.

Definition num_vases (env : RoomEnv) : nat := length (vase_locations env).

Definition nA : Z := 5.

Definition in_bounds (env : RoomEnv) (p : Pos) : bool :=
  (0 <=? p.1) && (p.1 <? width env) && (0 <=? p.2) && (p.2 <? height env).

(** [RoomEnv.get_next_state], on values; [None] when the action code has no
    direction.  [deepcopy] of a dict of tuples and booleans yields a dict
    with the same entries in the same order; the version on objects, where
    the copy is a new dict, is [get_next_state_obj] below. *)
Definition get_next_state (env : RoomEnv) (state : RoomState) (action : Z)
    : option RoomState :=
  new ← Direction.move_in_direction_number (agent_pos state) action;
  let new_agent_pos := if in_bounds env new then new else agent_pos state in
  let new_vase_states := vase_states state in
  let new_vase_states :=
    if PyDict.contains pos_eqb new_vase_states new_agent_pos
    then PyDict.set pos_eqb new_vase_states new_agent_pos false
    else new_vase_states in
  Some (mkRoomState new_agent_pos new_vase_states).

(** The agent stands on a vase that is intact:
    [pos in vase_states and vase_states[pos]]. *)
Definition on_intact_vase (pos : Pos) (vs : list (Pos * bool)) : bool :=
  PyDict.contains pos_eqb vs pos
  && match PyDict.get pos_eqb vs pos with Some b => b | None => false end.

(** ** State enumeration and the index tables *)

(** [itertools.product([True, False], repeat=n)]: all tuples of length [n],
    the first component varying slowest, [True] before [False]. *)
Fixpoint product_bools (repeat : nat) : list (list bool) :=
  match repeat with
  | O => [[]]
  | S n => b ← [true; false]; (b ::.) <$> product_bools n
  end.

(** The attributes [state_num], [num_state] and [nS] of a [RoomEnv]. *)
Record Tables := mkTables {
  state_num : list (RoomState * Z);
  num_state : list (Z * RoomState);
  nS : Z
}.

(** [if state not in state_num: state_num[state] = len(state_num)] *)
Definition add_state (state_num : list (RoomState * Z)) (state : RoomState)
    : list (RoomState * Z) :=
  if PyDict.contains RoomState_eq state_num state then state_num
  else PyDict.set RoomState_eq state_num state (Z.of_nat (length state_num)).

(** Body of the innermost loop of [enumerate_states]. *)
Definition enumerate_visit (vase_states : list (Pos * bool))
    (state_num : list (RoomState * Z)) (pos : Pos) : list (RoomState * Z) :=
  if on_intact_vase pos vase_states then state_num
  else add_state state_num (mkRoomState pos vase_states).

(** Body of the outer loop: one vase layout, all agent positions. *)
Definition enumerate_layout (env : RoomEnv) (state_num : list (RoomState * Z))
    (vase_intact_bools : list bool) : list (RoomState * Z) :=
  let vase_states :=
    PyDict.of_pairs pos_eqb (zip (vase_locations env) vase_intact_bools) in
  fold_left (λ state_num y,
      fold_left (λ state_num x, enumerate_visit vase_states state_num (x, y))
        (py_range (width env)) state_num)
    (py_range (height env)) state_num.

(** The dict [state_num] at the end of [enumerate_states]. *)
Definition enumerate_state_num (env : RoomEnv) : list (RoomState * Z) :=
  fold_left (enumerate_layout env) (product_bools (num_vases env)) [].

(** Methods of [RoomEnv] read and write the tables of [self]; a failed dict
    subscript raises [KeyError]. *)
Inductive result (A : Type) := Ok (a : A) | KeyError.
Arguments Ok {A} a.
Arguments KeyError {A}.

Definition M (A : Type) : Type := Tables → result A * Tables.

Definition ret {A} (a : A) : M A := λ self, (Ok a, self).

Definition bind {A B} (m : M A) (f : A → M B) : M B :=
  λ self, match m self with
          | (Ok a, self') => f a self'
          | (KeyError, self') => (KeyError, self')
          end.

Definition subscript {A} (o : option A) : M A :=
  λ self, (match o with Some a => Ok a | None => KeyError end, self).

(** [RoomEnv.enumerate_states]: fills the tables, returns the keys. *)
Definition enumerate_states (env : RoomEnv) : M (list RoomState) :=
  λ _,
    let state_num := enumerate_state_num env in
    let self := {|
      state_num := state_num;
      num_state := PyDict.of_pairs Z.eqb (prod_swap <$> state_num);
      nS := Z.of_nat (length state_num) |} in
    (Ok (PyDict.keys state_num), self).

(** [RoomEnv.get_num_from_state] *)
Definition get_num_from_state (state : RoomState) : M Z :=
  λ self, subscript (PyDict.get RoomState_eq (state_num self) state) self.

(** [RoomEnv.get_state_from_num] *)
Definition get_state_from_num (num : Z) : M RoomState :=
  λ self, subscript (PyDict.get Z.eqb (num_state self) num) self.

(** The tables of an environment after construction. *)
Definition tables_of (env : RoomEnv) : Tables :=
  (enumerate_states env (mkTables [] [] 0)).2.

(** The states returned by [enumerate_states]. *)
Definition enumerated (env : RoomEnv) : list RoomState :=
  PyDict.keys (enumerate_state_num env).

(** ** Feature extraction *)

Definition int_of_bool (b : bool) : Z := if b then 1 else 0.

(** [RoomEnv.s_to_f] *)
Definition s_to_f (env : RoomEnv) (s : RoomState) : list Z :=
  let num_broken_vases :=
    Z.of_nat (length (filter (λ b, b = false) (PyDict.values (vase_states s)))) in
  let carpet_feature :=
    int_of_bool (bool_decide (agent_pos s ∈ carpet_locations env)) in
  let features :=
    (λ fpos, int_of_bool (pos_eqb (agent_pos s) fpos)) <$> feature_locations env in
  [num_broken_vases; carpet_feature] ++ features.

(** ** Objects and references

    [get_next_state] receives a reference to a [RoomState] object whose
    [vase_states] attribute is a reference to a dict object, possibly shared
    with other states ([enumerate_states] stores one dict in every state of
    a layout).  The store below keeps both kinds of object; a reference is
    an index into it and allocation appends. *)

Inductive obj :=
  | ODict (d : list (Pos * bool))
  | OState (agent_pos : Pos) (vase_states : nat).

Abbreviation heap := (list obj).

Definition alloc (h : heap) (o : obj) : heap * nat := (h ++ [o], length h).

(** [deepcopy(d)] of a dict of tuples and booleans: a new dict object with
    the same entries (the immutable keys and values need no copy). *)
Definition deepcopy (h : heap) (r : nat) : option (heap * nat) :=
  match h !! r with
  | Some (ODict d) => Some (alloc h (ODict d))
  | _ => None
  end.

(** [d[k] = v] on the dict object behind reference [r]. *)
Definition setitem (h : heap) (r : nat) (k : Pos) (v : bool) : option heap :=
  match h !! r with
  | Some (ODict d) => Some (<[r := ODict (PyDict.set pos_eqb d k v)]> h)
  | _ => None
  end.

(** [k in d] on the dict object behind reference [r]. *)
Definition contains_ref (h : heap) (r : nat) (k : Pos) : option bool :=
  match h !! r with
  | Some (ODict d) => Some (PyDict.contains pos_eqb d k)
  | _ => None
  end.

(** [RoomEnv.get_next_state] on the store: the argument and the result are
    references to state objects. *)
Definition get_next_state_obj (env : RoomEnv) (h : heap) (state : nat)
    (action : Z) : option (heap * nat) :=
  match h !! state with
  | Some (OState state_agent_pos state_vase_states) =>
      new ← Direction.move_in_direction_number state_agent_pos action;
      let new_agent_pos := if in_bounds env new then new else state_agent_pos in
      '(h1, new_vase_states) ← deepcopy h state_vase_states;
      is_vase ← contains_ref h1 new_vase_states new_agent_pos;
      h2 ← (if is_vase : bool
            then setitem h1 new_vase_states new_agent_pos false
            else Some h1);
      Some (alloc h2 (OState new_agent_pos new_vase_states))
  | _ => None
  end.

(** The value of the state object behind a reference. *)
Definition state_value (h : heap) (r : nat) : option RoomState :=
  match h !! r with
  | Some (OState p vr) =>
      match h !! vr with
      | Some (ODict d) => Some (mkRoomState p d)
      | _ => None
      end
  | _ => None
  end.

(** ** Validity *)

(** A vase layout over the environment's vase locations: the dict built
    from the locations and one flag per location. *)
Definition layout_of (env : RoomEnv) (bools : list bool) : list (Pos * bool) :=
  PyDict.of_pairs pos_eqb (zip (vase_locations env) bools).

(** A (layout, position) pair obeys the validity rule: one flag per vase,
    the agent inside the grid and not on an intact vase. *)
Definition valid_pair (env : RoomEnv) (bools : list bool) (pos : Pos) : Prop :=
  length bools = num_vases env
  ∧ in_bounds env pos = true
  ∧ on_intact_vase pos (layout_of env bools) = false.

(** A state of the environment obeying the validity rule. *)
Definition valid_state (env : RoomEnv) (s : RoomState) : Prop :=
  ∃ bools, valid_pair env bools (agent_pos s)
           ∧ vase_states s = layout_of env bools.

(** The cells of the grid in the order the loops of [enumerate_states]
    visit them: rows outside, columns inside. *)
Definition cells (env : RoomEnv) : list Pos :=
  y ← py_range (height env); x ← py_range (width env); [(x, y)].

(** The states the loops of [enumerate_states] construct, in order, before
    the table decides which of them are new. *)
Definition candidates (env : RoomEnv) : list RoomState :=
  bools ← product_bools (num_vases env);
  (λ pos, mkRoomState pos (layout_of env bools))
    <$> filter (λ pos, on_intact_vase pos (layout_of env bools) = false)
          (cells env).

(** An independent brute-force listing of the (layout, position) pairs
    that obey the validity rule: positions outside, layouts inside. *)
Definition brute_force_pairs (env : RoomEnv) : list (list bool * Pos) :=
  pos ← cells env;
  bools ← product_bools (num_vases env);
  if on_intact_vase pos (layout_of env bools) then [] else [(bools, pos)].

Definition brute_force_count (env : RoomEnv) : Z :=
  Z.of_nat (length (brute_force_pairs env)).

(** A state over the environment's vase locations, in their order. *)
Definition state_over (env : RoomEnv) (s : RoomState) : Prop :=
  PyDict.keys (vase_states s) = vase_locations env.

(** ** Trajectories *)

(** The state reached by taking a list of actions in turn, each with
    [get_next_state]; [None] as soon as one action code has no direction. *)
Fixpoint run (env : RoomEnv) (s : RoomState) (actions : list Z)
    : option RoomState :=
  match actions with
  | [] => Some s
  | a :: actions' => s' ← get_next_state env s a; run env s' actions'
  end.

(** ** Construction of the environment *)

(** The attributes of the [spec] object that [RoomEnv.__init__] reads. *)
Record Spec := mkSpec {
  spec_height : Z;
  spec_width : Z;
  spec_init_state : RoomState;
  spec_carpet_locations : list Pos;
  spec_feature_locations : list Pos
}.

(** The attributes of [self] that [RoomEnv.__init__] sets in this file. *)
Record RoomEnvSelf := mkRoomEnvSelf {
  self_env : RoomEnv;
  self_init_state : RoomState;
  self_default_action : Z;
  self_nA : Z;
  self_num_features : nat;
  self_tables : option Tables
}.

(** [RoomEnv.__init__].  The calls into the base class ([reset],
    [make_transition_matrices], [make_f_matrix]) are defined outside this
    file and set other attributes; the tables are those left by
    [enumerate_states], which runs only when [compute_transitions] holds. *)
Definition RoomEnv_init (spec : Spec) (compute_transitions : bool)
    : RoomEnvSelf :=
  let init_state := spec_init_state spec in
  let env := {|
    height := spec_height spec;
    width := spec_width spec;
    vase_locations := PyDict.keys (vase_states init_state);
    carpet_locations := list_to_set (spec_carpet_locations spec);
    feature_locations := spec_feature_locations spec |} in
  {| self_env := env;
     self_init_state := init_state;
     self_default_action :=
       Direction.get_number_from_direction Direction.STAY;
     self_nA := nA;
     self_num_features := length (s_to_f env init_state);
     self_tables :=
       if compute_transitions
       then Some (enumerate_states env (mkTables [] [] 0)).2
       else None |}.

(** ** Rendering representation *)

(** A list subscript [l[i]] on a list of length [len]: the position read,
    negative indices counting from the end; [None] is [IndexError]. *)
Definition py_index (len : nat) (i : Z) : option nat :=
  if (0 <=? i) && (i <? Z.of_nat len) then Some (Z.to_nat i)
  else if (- Z.of_nat len <=? i) && (i <? 0)
       then Some (Z.to_nat (Z.of_nat len + i))
       else None.

(** [grid[y][x].append(item)] *)
Definition grid_append (grid : list (list (list string))) (pos : Pos)
    (item : string) : option (list (list (list string))) :=
  ny ← py_index (length grid) pos.2;
  row ← grid !! ny;
  nx ← py_index (length row) pos.1;
  cell ← row !! nx;
  Some (<[ny := <[nx := cell ++ [item]]> row]> grid).

(** A loop of [grid[y][x].append(item)] statements. *)
Definition grid_appends (grid : list (list (list string)))
    (ops : list (Pos * string)) : option (list (list (list string))) :=
  foldl (λ g op, g ← g; grid_append g op.1 op.2) (Some grid) ops.

(** [RoomEnv.get_state_rendering_representation].  A set is iterated in an
    order Python does not specify; [carpets] is that order. *)
Definition get_state_rendering_representation (env : RoomEnv)
    (carpets : list Pos) (state : RoomState)
    : option (list (list (list string))) :=
  let grid :=
    replicate (Z.to_nat (height env)) (replicate (Z.to_nat (width env)) []) in
  grid ← grid_appends grid ((λ pos, (pos, "rug")) <$> carpets);
  grid ← grid_appends grid ((λ pos, (pos, "door")) <$> feature_locations env);
  grid ← grid_appends grid
            ((λ kv, (kv.1, if kv.2 : bool then "vase" else "pieces"))
               <$> vase_states state);
  grid_append grid (agent_pos state) "human".

(** [grid[y][x]] *)
Definition grid_cell (grid : list (list (list string))) (pos : Pos)
    : option (list string) :=
  ny ← py_index (length grid) pos.2;
  row ← grid !! ny;
  nx ← py_index (length row) pos.1;
  row !! nx.

(** A grid of [height] rows of [width] cells. *)
Definition grid_shape (env : RoomEnv) (grid : list (list (list string)))
    : Prop :=
  length grid = Z.to_nat (height env)
  ∧ Forall (λ row, length row = Z.to_nat (width env)) grid.

(** ** Console rendering *)

(** [range(start, stop, step)] for a positive [step]. *)
Definition py_range3 (start stop step : Z) : list Z :=
  (λ i, start + step * i) <$> py_range ((stop - start + step - 1) `div` step).

(** A loop whose body may raise: the state after the last element, or
    [None] from the first element on which the body fails. *)
Fixpoint for_each {A S : Type} (body : S → A → option S) (l : list A) (s : S)
    : option S :=
  match l with
  | [] => Some s
  | a :: l' => s' ← body s a; for_each body l' s'
  end.

(** [np.zeros((rows, cols), dtype='int8')]; a negative dimension raises
    [ValueError]. *)
Definition canvas_zeros (rows cols : Z) : option (list (list Z)) :=
  if (0 <=? rows) && (0 <=? cols)
  then Some (replicate (Z.to_nat rows) (replicate (Z.to_nat cols) 0))
  else None.

(** [canvas[y, :] = v] *)
Definition canvas_fill_row (canvas : list (list Z)) (y v : Z)
    : option (list (list Z)) :=
  ny ← py_index (length canvas) y;
  row ← canvas !! ny;
  Some (<[ny := replicate (length row) v]> canvas).

(** [canvas[:, x] = v] on a canvas of [cols] columns. *)
Definition canvas_fill_col (cols : nat) (canvas : list (list Z)) (x v : Z)
    : option (list (list Z)) :=
  nx ← py_index cols x;
  Some ((λ row, <[nx := v]> row) <$> canvas).

(** [canvas[y, x] = v] on a canvas of [cols] columns. *)
Definition canvas_set (cols : nat) (canvas : list (list Z)) (y x v : Z)
    : option (list (list Z)) :=
  ny ← py_index (length canvas) y;
  nx ← py_index cols x;
  row ← canvas !! ny;
  Some (<[ny := <[nx := v]> row]> canvas).

(** The canvas [RoomEnv.print_state] has built when it starts printing:
    0 empty, 1 and 2 cell borders, 3 the agent, 4 an intact vase, 6 a
    broken one. *)
Definition print_state_canvas (env : RoomEnv) (state : RoomState)
    : option (list (list Z)) :=
  let h := height env in
  let w := width env in
  canvas ← canvas_zeros (2 * h - 1) (3 * w + 1);
  let cols := Z.to_nat (3 * w + 1) in
  canvas ← for_each (λ canvas y, canvas_fill_row canvas y 1)
             (py_range3 1 (2 * h - 1) 2) canvas;
  canvas ← for_each (λ canvas x, canvas_fill_col cols canvas x 2)
             (py_range3 0 (3 * w + 1) 3) canvas;
  canvas ← for_each
             (λ canvas pos,
                intact ← PyDict.get pos_eqb (vase_states state) pos;
                canvas_set cols canvas (2 * pos.2) (3 * pos.1 + 1)
                  (if intact : bool then 4 else 6))
             (vase_locations env) canvas;
  canvas_set cols canvas (2 * (agent_pos state).2)
    (3 * (agent_pos state).1 + 2) 3.

Definition esc : string := String (Ascii.ascii_of_nat 27) "".
Definition newline : string := String (Ascii.ascii_of_nat 10) "".
Definition black_color : string := esc +:+ "[0m".
Definition purple_background_color : string := esc +:+ "[0;35;85m".

(** What [print_state] prints for one canvas cell (the characters as
    UTF-8 bytes); nothing for a value other than 0..6. *)
Definition glyph (char_num : Z) : string :=
  if char_num =? 0 then " "
  else if char_num =? 1 then "─"
  else if char_num =? 2 then "│"
  else if char_num =? 3 then esc +:+ "[0;33;85m█" +:+ black_color
  else if char_num =? 4 then esc +:+ "[0;32;85m█" +:+ black_color
  else if char_num =? 5 then purple_background_color +:+ "█" +:+ black_color
  else if char_num =? 6 then esc +:+ "[91m█" +:+ black_color
  else "".

(** [RoomEnv.print_state]: the text written to standard output. *)
Definition print_state (env : RoomEnv) (state : RoomState) : option string :=
  canvas ← print_state_canvas env state;
  Some (String.concat ""
          ((λ line, String.concat "" (glyph <$> line) +:+ newline)
             <$> canvas)).

(** The canvas with [f y x] in row [y], column [x]. *)
Definition canvas_of (rows cols : nat) (f : Z → Z → Z) : list (list Z) :=
  (λ y, (λ x, f (Z.of_nat y) (Z.of_nat x)) <$> seq 0 cols) <$> seq 0 rows.

(** The picture of a state: cell [(x, y)] of the grid occupies columns
    [3x+1] (the vase) and [3x+2] (the agent) of row [2y]; every third
    column and every odd row is a border. *)
Definition picture (env : RoomEnv) (state : RoomState) (y x : Z) : Z :=
  if decide (y `mod` 2 = 0 ∧ x `mod` 3 = 2
             ∧ agent_pos state = (x `div` 3, y `div` 2)) then 3
  else if decide (y `mod` 2 = 0 ∧ x `mod` 3 = 1
                  ∧ (x `div` 3, y `div` 2) ∈ vase_locations env)
       then match PyDict.get pos_eqb (vase_states state)
                    (x `div` 3, y `div` 2) with
            | Some false => 6
            | _ => 4
            end
  else if decide (x `mod` 3 = 0) then 2
  else if decide (y `mod` 2 = 1) then 1
  else 0.

(** * Properties *)

(** ** Positions *)

Lemma pos_eqb_eq (p q : Pos) : pos_eqb p q = true ↔ p = q.
Proof.
  destruct p as [x y], q as [x' y']. unfold pos_eqb; simpl.
  rewrite andb_true_iff, !Z.eqb_eq. split; [intros [-> ->]; done|].
  intros [= -> ->]; done.
Qed.

Lemma pos_eqb_refl (p : Pos) : pos_eqb p p = true.
Proof. by apply pos_eqb_eq. Qed.

Lemma pos_eqb_neq (p q : Pos) : pos_eqb p q = false ↔ p ≠ q.
Proof. rewrite <-pos_eqb_eq. by destruct (pos_eqb p q). Qed.

#[global] Instance pos_le_trans : Transitive pos_le.
Proof.
  intros [x1 y1] [x2 y2] [x3 y3]. unfold pos_le, pos_leb; simpl.
  rewrite !orb_true_iff, !andb_true_iff, !Z.ltb_lt, !Z.eqb_eq, !Z.leb_le. lia.
Qed.

#[global] Instance pos_le_antisymm : AntiSymm (=) pos_le.
Proof.
  intros [x1 y1] [x2 y2]. unfold pos_le, pos_leb; simpl.
  rewrite !orb_true_iff, !andb_true_iff, !Z.ltb_lt, !Z.eqb_eq, !Z.leb_le.
  intros ??. f_equal; lia.
Qed.

#[global] Instance pos_le_total : Total pos_le.
Proof.
  intros [x1 y1] [x2 y2]. unfold pos_le, pos_leb; simpl.
  rewrite !orb_true_iff, !andb_true_iff, !Z.ltb_lt, !Z.eqb_eq, !Z.leb_le. lia.
Qed.

(** Sorting forgets the order in which the keys were inserted. *)
Lemma sorted_Permutation (l1 l2 : list Pos) : l1 ≡ₚ l2 → sorted l1 = sorted l2.
Proof.
  intros Hp. unfold sorted.
  apply (Sorted_unique pos_le); [apply Sorted_merge_sort; apply _..|].
  by rewrite !merge_sort_Permutation.
Qed.

(** ** Dictionaries *)

Section dict_lemmas.
Context {K V : Type} (eqb : K → K → bool).

(** The keys on which [eqb] decides equality: everything for tuples and
    integers, the states over one vase-location list for [RoomState]. *)
Context (P : K → Prop).
Hypothesis eqb_spec : ∀ a b, P a → P b → (eqb a b = true ↔ a = b).

Implicit Types (d : list (K * V)) (k : K) (v : V).

Lemma dict_get_None_iff d k :
  PyDict.get eqb d k = None ↔ ∀ k', k' ∈ d.*1 → eqb k' k = false.
Proof.
  induction d as [|[k0 v0] d IH]; simpl.
  - split; [intros _ k' Hk'; by apply elem_of_nil in Hk'|done].
  - destruct (eqb k0 k) eqn:E.
    + split; [done|]. intros H. specialize (H k0 ltac:(left)). congruence.
    + rewrite IH. split.
      * intros H k' [->|Hk']%elem_of_cons; auto.
      * intros H k' Hk'. apply H. by right.
Qed.

Lemma dict_contains_get d k :
  PyDict.contains eqb d k = true ↔ is_Some (PyDict.get eqb d k).
Proof.
  unfold PyDict.contains. destruct (PyDict.get eqb d k); split; try done.
Qed.

Lemma dict_contains_false d k :
  PyDict.contains eqb d k = false ↔ PyDict.get eqb d k = None.
Proof. unfold PyDict.contains. by destruct (PyDict.get eqb d k). Qed.

Lemma dict_get_Some_elem_of d k v :
  Forall P d.*1 → P k → PyDict.get eqb d k = Some v → (k, v) ∈ d.
Proof.
  induction d as [|[k0 v0] d IH]; simpl; [done|].
  intros [HP0 HP]%Forall_cons HPk. destruct (eqb k0 k) eqn:E.
  - apply eqb_spec in E as ->; [|done..]. intros [= ->]. left.
  - intros ?. right. by apply IH.
Qed.

Lemma dict_elem_of_get d k v :
  Forall P d.*1 → NoDup d.*1 → (k, v) ∈ d → PyDict.get eqb d k = Some v.
Proof.
  induction d as [|[k0 v0] d IH]; simpl.
  - intros _ _ H. by apply elem_of_nil in H.
  - intros [HP0 HP]%Forall_cons [Hk0 Hnd]%NoDup_cons [[= -> ->]|Hin]%elem_of_cons.
    + assert (eqb k0 k0 = true) as -> by (by apply eqb_spec). done.
    + assert (P k) as HPk.
      { rewrite Forall_forall in HP. apply HP.
        apply list_elem_of_fmap. by exists (k, v). }
      destruct (eqb k0 k) eqn:E; [|by apply IH].
      apply eqb_spec in E as ->; [|done..]. exfalso. apply Hk0.
      apply list_elem_of_fmap. by exists (k, v).
Qed.

Lemma dict_get_None_not_elem d k :
  Forall P d.*1 → P k → (PyDict.get eqb d k = None ↔ k ∉ d.*1).
Proof.
  intros HP HPk. rewrite dict_get_None_iff. rewrite Forall_forall in HP.
  split.
  - intros H Hin. specialize (H k Hin).
    assert (eqb k k = true) by (by apply eqb_spec). congruence.
  - intros Hn k' Hk'. destruct (eqb k' k) eqn:E; [|done].
    apply eqb_spec in E as ->; auto. done.
Qed.

Lemma dict_set_absent d k v :
  PyDict.get eqb d k = None → PyDict.set eqb d k v = d ++ [(k, v)].
Proof.
  induction d as [|[k0 v0] d IH]; simpl; [done|].
  destruct (eqb k0 k); [done|]. intros ?. by rewrite IH.
Qed.

Lemma dict_set_present_keys d k v :
  is_Some (PyDict.get eqb d k) → (PyDict.set eqb d k v).*1 = d.*1.
Proof.
  induction d as [|[k0 v0] d IH]; simpl.
  - by intros [? ?].
  - destruct (eqb k0 k); [done|]. intros ?. simpl. f_equal. by apply IH.
Qed.

Lemma dict_set_length_present d k v :
  is_Some (PyDict.get eqb d k) → length (PyDict.set eqb d k v) = length d.
Proof.
  intros H. rewrite <-(length_fmap fst (PyDict.set eqb d k v)).
  rewrite dict_set_present_keys by done. by rewrite length_fmap.
Qed.

(** Writing pairs with pairwise distinct keys into an empty dict keeps
    them as they come. *)
Lemma dict_of_pairs_app (acc l : list (K * V)) :
  Forall P (acc ++ l).*1 → NoDup (acc ++ l).*1 →
  fold_left (λ d kv, PyDict.set eqb d kv.1 kv.2) l acc = acc ++ l.
Proof.
  revert acc. induction l as [|[k v] l IH]; intros acc HP Hnd; simpl.
  - by rewrite app_nil_r.
  - rewrite dict_set_absent.
    + rewrite IH; rewrite <-?(assoc_L (++)); done.
    + rewrite fmap_app, fmap_cons in HP, Hnd. simpl in *.
      apply Forall_app in HP as [HPa [HPk _]%Forall_cons].
      apply dict_get_None_not_elem; [done..|].
      apply NoDup_app in Hnd as (_ & Hd & _). intros Hin.
      apply (Hd k Hin). left.
Qed.

Lemma dict_of_pairs_NoDup (l : list (K * V)) :
  Forall P l.*1 → NoDup l.*1 → PyDict.of_pairs eqb l = l.
Proof. intros. unfold PyDict.of_pairs. by rewrite dict_of_pairs_app. Qed.
End dict_lemmas.

(** ** Dictionaries keyed by positions *)

Section pos_dict.
Implicit Types (d : list (Pos * bool)) (k q : Pos) (v : bool).

Let PT : Pos → Prop := λ _, True.

Lemma pos_eqb_spec (a b : Pos) : PT a → PT b → (pos_eqb a b = true ↔ a = b).
Proof. intros _ _. apply pos_eqb_eq. Qed.

Lemma pos_Forall_True (l : list Pos) : Forall PT l.
Proof. by apply Forall_forall. Qed.

Lemma pos_get_Some_elem_of d k v :
  PyDict.get pos_eqb d k = Some v → (k, v) ∈ d.
Proof.
  apply (dict_get_Some_elem_of _ PT pos_eqb_spec); [apply pos_Forall_True|done].
Qed.

Lemma pos_elem_of_get d k v :
  dict_wf d → (k, v) ∈ d → PyDict.get pos_eqb d k = Some v.
Proof.
  apply (dict_elem_of_get _ PT pos_eqb_spec), pos_Forall_True.
Qed.

Lemma pos_get_Some_iff d k v :
  dict_wf d → PyDict.get pos_eqb d k = Some v ↔ (k, v) ∈ d.
Proof. split; [apply pos_get_Some_elem_of|by apply pos_elem_of_get]. Qed.

Lemma pos_get_None d k : PyDict.get pos_eqb d k = None ↔ k ∉ d.*1.
Proof.
  apply (dict_get_None_not_elem _ PT pos_eqb_spec); [apply pos_Forall_True|done].
Qed.

Lemma pos_contains_elem_of d k :
  PyDict.contains pos_eqb d k = true ↔ k ∈ d.*1.
Proof.
  destruct (PyDict.contains pos_eqb d k) eqn:E.
  - split; [intros _|done]. destruct (decide (k ∈ d.*1)) as [|Hn]; [done|].
    apply pos_get_None, dict_contains_false in Hn. congruence.
  - split; [done|]. intros Hin. apply dict_contains_false, pos_get_None in E.
    done.
Qed.

Lemma pos_of_pairs_NoDup (l : list (Pos * bool)) :
  NoDup l.*1 → PyDict.of_pairs pos_eqb l = l.
Proof.
  apply (dict_of_pairs_NoDup _ PT pos_eqb_spec), pos_Forall_True.
Qed.

(** Reading back a written key, and any other key. *)
Lemma pos_get_set_eq d k v :
  PyDict.get pos_eqb (PyDict.set pos_eqb d k v) k = Some v.
Proof.
  induction d as [|[k0 v0] d IH]; simpl.
  - by rewrite pos_eqb_refl.
  - destruct (pos_eqb k0 k) eqn:E; simpl; by rewrite E.
Qed.

Lemma pos_get_set_ne d k q v :
  q ≠ k → PyDict.get pos_eqb (PyDict.set pos_eqb d k v) q = PyDict.get pos_eqb d q.
Proof.
  intros Hne.
  assert (pos_eqb k q = false) as Hkq by (apply pos_eqb_neq; congruence).
  induction d as [|[k0 v0] d IH]; simpl.
  - by rewrite Hkq.
  - destruct (pos_eqb k0 k) eqn:E; simpl.
    + apply pos_eqb_eq in E as ->. by rewrite Hkq.
    + by rewrite IH.
Qed.

Lemma pos_set_keys d k v :
  k ∈ d.*1 → (PyDict.set pos_eqb d k v).*1 = d.*1.
Proof.
  intros Hin. apply dict_set_present_keys, dict_contains_get.
  by apply pos_contains_elem_of.
Qed.

(** Dict equality on well-formed dicts is equality of the entry sets. *)
Lemma pos_dict_eq_entries d1 d2 :
  PyDict.eq pos_eqb Bool.eqb d1 d2 = true ↔
  length d1 = length d2 ∧
  ∀ k v, (k, v) ∈ d1 → PyDict.get pos_eqb d2 k = Some v.
Proof.
  unfold PyDict.eq. rewrite andb_true_iff, Nat.eqb_eq, forallb_forall.
  apply and_iff_compat_l. split.
  - intros H k v Hin. apply list_elem_of_In in Hin.
    specialize (H _ Hin). simpl in H.
    destruct (PyDict.get pos_eqb d2 k) as [v'|]; [|done].
    apply Bool.eqb_prop in H. by subst.
  - intros H [k v] Hin%list_elem_of_In. simpl.
    rewrite (H _ _ Hin). by destruct v.
Qed.

Lemma dict_wf_NoDup d : dict_wf d → NoDup d.
Proof. intros H. by apply NoDup_fmap_1 in H. Qed.

Lemma pos_dict_eq_Permutation d1 d2 :
  dict_wf d1 → dict_wf d2 →
  PyDict.eq pos_eqb Bool.eqb d1 d2 = true ↔ d1 ≡ₚ d2.
Proof.
  intros Hwf1 Hwf2. rewrite pos_dict_eq_entries. split.
  - intros [Hlen Hsub]. apply submseteq_length_Permutation; [|lia].
    apply NoDup_submseteq; [by apply dict_wf_NoDup|].
    intros [k v] Hin. by apply pos_get_Some_elem_of, Hsub.
  - intros Hp. split; [by rewrite Hp|].
    intros k v Hin. apply pos_elem_of_get; [done|]. by rewrite <-Hp.
Qed.

Lemma pos_get_Permutation d1 d2 k :
  dict_wf d1 → d1 ≡ₚ d2 → PyDict.get pos_eqb d1 k = PyDict.get pos_eqb d2 k.
Proof.
  intros Hwf1 Hp.
  assert (dict_wf d2) as Hwf2 by (unfold dict_wf; by rewrite <-Hp).
  destruct (PyDict.get pos_eqb d1 k) as [v|] eqn:E1.
  - symmetry. apply pos_get_Some_iff; [done|]. rewrite <-Hp.
    by apply pos_get_Some_elem_of.
  - symmetry. apply pos_get_None. rewrite <-Hp. by apply pos_get_None.
Qed.

Lemma pos_dict_ext_Permutation d1 d2 :
  dict_wf d1 → dict_wf d2 →
  (∀ k, PyDict.get pos_eqb d1 k = PyDict.get pos_eqb d2 k) ↔ d1 ≡ₚ d2.
Proof.
  intros Hwf1 Hwf2. split; [|intros Hp k; by apply pos_get_Permutation].
  intros Hext. apply NoDup_Permutation; [by apply dict_wf_NoDup..|].
  intros [k v]. rewrite <-!pos_get_Some_iff by done. by rewrite Hext.
Qed.

(** Two dicts with the same keys in the same order and the same entries
    are the same list. *)
Lemma pos_dict_same_keys_eq d1 d2 :
  d1.*1 = d2.*1 → dict_wf d1 → d1 ≡ₚ d2 → d1 = d2.
Proof.
  revert d2.
  induction d1 as [|[k v] d1 IH]; intros [|[k' v'] d2]; csimpl; try done.
  unfold dict_wf; csimpl. intros [= <- Hk] [Hnk Hnd]%NoDup_cons Hp.
  assert (v = v') as <-.
  { assert ((k, v) ∈ (k, v') :: d2) as Hin by (rewrite <-Hp; left).
    apply elem_of_cons in Hin as [[= ->]|Hin]; [done|].
    exfalso. apply Hnk. rewrite Hk. apply list_elem_of_fmap. by exists (k, v). }
  f_equal. apply IH; [done..|]. by apply (inj ((k, v) ::.)).
Qed.

(** The values read in sorted key order do not depend on insertion order,
    and reading them never fails. *)
Lemma get_vals_Permutation d1 d2 :
  dict_wf d1 → d1 ≡ₚ d2 → get_vals d1 = get_vals d2.
Proof.
  intros Hwf Hp. unfold get_vals, PyDict.keys.
  rewrite (sorted_Permutation d1.*1 d2.*1) by (by rewrite Hp).
  apply mapM_ext. intros k. by apply pos_get_Permutation.
Qed.

Lemma get_vals_is_Some d : is_Some (get_vals d).
Proof.
  unfold get_vals, PyDict.keys, sorted. apply mapM_is_Some, Forall_forall.
  intros k Hk. rewrite merge_sort_Permutation in Hk. simpl.
  destruct (PyDict.get pos_eqb d k) eqn:E; [by eexists|].
  by apply pos_get_None in E.
Qed.
End pos_dict.

(** ** Directions *)

Lemma get_direction_from_number_Some (a : Z) (d : Direction.t) :
  Direction.get_direction_from_number a = Some d ↔
  0 ≤ a < nA ∧ a = Direction.get_number_from_direction d.
Proof.
  unfold Direction.get_direction_from_number, nA.
  destruct (Z.leb_spec 0 a) as [Hle|Hlt]; [|split; [done|lia]].
  destruct (decide (a < 5)) as [Hlt|Hge].
  - assert (a = 0 ∨ a = 1 ∨ a = 2 ∨ a = 3 ∨ a = 4) as Ha by lia.
    destruct Ha as [-> | [-> | [-> | [-> | ->]]]]; destruct d; simpl;
      split; (done || lia || (intros [_ ?]; done)).
  - rewrite lookup_ge_None_2 by (simpl; lia). split; [done|lia].
Qed.

Lemma get_direction_from_number_total (a : Z) :
  0 ≤ a < nA → is_Some (Direction.get_direction_from_number a).
Proof.
  unfold nA. intros Ha.
  assert (a = 0 ∨ a = 1 ∨ a = 2 ∨ a = 3 ∨ a = 4) as H by lia.
  destruct H as [-> | [-> | [-> | [-> | ->]]]]; by eexists.
Qed.

Lemma get_direction_of_number (d : Direction.t) :
  Direction.get_direction_from_number (Direction.get_number_from_direction d)
  = Some d.
Proof. by destruct d. Qed.

(** ** The transition function *)

(** What a successful call returns, in terms of the direction taken. *)
Lemma get_next_state_inv (env : RoomEnv) (s s' : RoomState) (a : Z) :
  get_next_state env s a = Some s' →
  ∃ d, Direction.get_direction_from_number a = Some d
    ∧ agent_pos s' =
        (if in_bounds env (Direction.move_in_direction (agent_pos s) d)
         then Direction.move_in_direction (agent_pos s) d else agent_pos s)
    ∧ vase_states s' =
        (if PyDict.contains pos_eqb (vase_states s) (agent_pos s')
         then PyDict.set pos_eqb (vase_states s) (agent_pos s') false
         else vase_states s).
Proof.
  unfold get_next_state, Direction.move_in_direction_number.
  destruct (Direction.get_direction_from_number a) as [d|]; [|done].
  simpl. intros [= <-]. by exists d.
Qed.

Lemma get_next_state_total (env : RoomEnv) (s : RoomState) (a : Z) :
  0 ≤ a < nA → is_Some (get_next_state env s a).
Proof.
  intros [d Hd]%get_direction_from_number_total.
  unfold get_next_state, Direction.move_in_direction_number.
  rewrite Hd. by eexists.
Qed.

Lemma get_next_state_direction (env : RoomEnv) (s : RoomState) (d : Direction.t) :
  ∃ s', get_next_state env s (Direction.get_number_from_direction d) = Some s'.
Proof.
  unfold get_next_state, Direction.move_in_direction_number.
  rewrite get_direction_of_number. by eexists.
Qed.

Lemma get_next_state_in_bounds (env : RoomEnv) (s s' : RoomState) (a : Z) :
  in_bounds env (agent_pos s) = true →
  get_next_state env s a = Some s' →
  in_bounds env (agent_pos s') = true.
Proof.
  intros Hin (d & _ & Hpos & _)%get_next_state_inv. rewrite Hpos.
  by destruct (in_bounds env (Direction.move_in_direction (agent_pos s) d)) eqn:E.
Qed.

Lemma get_next_state_keys (env : RoomEnv) (s s' : RoomState) (a : Z) :
  get_next_state env s a = Some s' →
  PyDict.keys (vase_states s') = PyDict.keys (vase_states s).
Proof.
  intros (d & _ & _ & Hvs)%get_next_state_inv. rewrite Hvs.
  destruct (PyDict.contains pos_eqb (vase_states s) (agent_pos s')) eqn:E; [|done].
  by apply pos_set_keys, pos_contains_elem_of.
Qed.

Lemma get_next_state_flag_here (env : RoomEnv) (s s' : RoomState) (a : Z) :
  get_next_state env s a = Some s' →
  agent_pos s' ∈ PyDict.keys (vase_states s) →
  PyDict.get pos_eqb (vase_states s') (agent_pos s') = Some false.
Proof.
  intros (d & _ & _ & Hvs)%get_next_state_inv Hin. rewrite Hvs.
  apply pos_contains_elem_of in Hin. rewrite Hin. apply pos_get_set_eq.
Qed.

Lemma get_next_state_flag_other (env : RoomEnv) (s s' : RoomState) (a : Z) (q : Pos) :
  get_next_state env s a = Some s' →
  q ≠ agent_pos s' →
  PyDict.get pos_eqb (vase_states s') q = PyDict.get pos_eqb (vase_states s) q.
Proof.
  intros (d & _ & _ & Hvs)%get_next_state_inv Hne. rewrite Hvs.
  destruct (PyDict.contains pos_eqb (vase_states s) (agent_pos s')); [|done].
  by apply pos_get_set_ne.
Qed.

Lemma get_next_state_not_on_intact (env : RoomEnv) (s s' : RoomState) (a : Z) :
  get_next_state env s a = Some s' →
  on_intact_vase (agent_pos s') (vase_states s') = false.
Proof.
  intros Hstep. unfold on_intact_vase.
  destruct (PyDict.contains pos_eqb (vase_states s') (agent_pos s')) eqn:E; [|done].
  apply pos_contains_elem_of in E.
  pose proof (get_next_state_keys _ _ _ _ Hstep) as Hk.
  unfold PyDict.keys in Hk. rewrite Hk in E.
  by rewrite (get_next_state_flag_here _ _ _ _ Hstep E).
Qed.

(** Writing the value a key already has changes nothing. *)
Lemma pos_set_same (d : list (Pos * bool)) (k : Pos) (v : bool) :
  PyDict.get pos_eqb d k = Some v → PyDict.set pos_eqb d k v = d.
Proof.
  induction d as [|[k0 v0] d IH]; simpl; [done|].
  destruct (pos_eqb k0 k); [by intros [= ->]|]. intros ?. by rewrite IH.
Qed.

(** C4 — Vase-breaking rule.  For every state and action on which
    [get_next_state] returns: if the (possibly clamped) new agent position
    is a vase location, the successor's flag there is [False] whatever it
    was before; the flag of every other location is unchanged and so is
    the list of vase locations; when the vase at the destination is already
    broken the layout is returned as it was.  In particular EAST from
    [(0,0)] onto a vase at [(1,0)], in a grid of width at least 2 that
    contains [(0,0)], ends at [(1,0)] with that vase's flag [False]. *)
Theorem C4_vase_breaking (env : RoomEnv) (s s' : RoomState) (a : Z) :
  get_next_state env s a = Some s' →
  (agent_pos s' ∈ PyDict.keys (vase_states s) →
     PyDict.get pos_eqb (vase_states s') (agent_pos s') = Some false)
  ∧ (∀ q, q ≠ agent_pos s' →
       PyDict.get pos_eqb (vase_states s') q = PyDict.get pos_eqb (vase_states s) q)
  ∧ PyDict.keys (vase_states s') = PyDict.keys (vase_states s)
  ∧ (PyDict.get pos_eqb (vase_states s) (agent_pos s') = Some false →
       vase_states s' = vase_states s)
  ∧ (agent_pos s = (0, 0) →
     a = Direction.get_number_from_direction Direction.EAST →
     2 ≤ width env → 1 ≤ height env →
     (1, 0) ∈ PyDict.keys (vase_states s) →
     agent_pos s' = (1, 0)
     ∧ PyDict.get pos_eqb (vase_states s') (1, 0) = Some false).
Proof.
  intros Hstep. split_and!.
  - by apply (get_next_state_flag_here env s s' a).
  - intros q. by apply (get_next_state_flag_other env s s' a).
  - by apply (get_next_state_keys env s s' a).
  - intros Hbroken.
    destruct (get_next_state_inv _ _ _ _ Hstep) as (d & _ & _ & ->).
    destruct (PyDict.contains pos_eqb (vase_states s) (agent_pos s')); [|done].
    by apply pos_set_same.
  - intros Hpos -> Hw Hh Hvase.
    assert (agent_pos s' = (1, 0)) as Hpos'.
    { destruct (get_next_state_inv _ _ _ _ Hstep) as (d & Hd & -> & _).
      simpl in Hd. injection Hd as <-. rewrite Hpos.
      unfold Direction.move_in_direction, in_bounds; simpl.
      change (0 + 1) with 1. change (0 + 0) with 0.
      assert ((1 <? width env) = true) as -> by (apply Z.ltb_lt; lia).
      assert ((0 <? height env) = true) as -> by (apply Z.ltb_lt; lia).
      done. }
    split; [done|]. rewrite <-Hpos'.
    apply (get_next_state_flag_here env s s' _ Hstep). by rewrite Hpos'.
Qed.

Lemma C4_vase_breaking_witness :
  let env := mkRoomEnv 1 2 [(1, 0)] ∅ [] in
  let s := mkRoomState (0, 0) [((1, 0), true)] in
  let s' := mkRoomState (1, 0) [((1, 0), false)] in
  get_next_state env s 2 = Some s'
  ∧ agent_pos s' = (1, 0)
  ∧ PyDict.get pos_eqb (vase_states s') (1, 0) = Some false.
Proof.
  intros env s s'.
  assert (get_next_state env s 2 = Some s') as Hstep by reflexivity.
  split; [exact Hstep|].
  apply (C4_vase_breaking env s s' 2 Hstep); simpl; try reflexivity; try lia.
  apply list_elem_of_here.
Defined.

(** C5 — Boundary clamp.  For every state whose agent is inside the grid
    and every action whose delta leads outside [[0,width) x [0,height)],
    [get_next_state] returns a state with the agent where it was.  From
    the corner [(0,0)], WEST leaves the agent at [(0,0)], and so does every
    direction that the axis convention maps off the grid there (NORTH, with
    row 0 at the top). *)
Theorem C5_boundary_clamp :
  (∀ (env : RoomEnv) (s : RoomState) (a : Z) (d : Direction.t),
     in_bounds env (agent_pos s) = true →
     Direction.get_direction_from_number a = Some d →
     in_bounds env (Direction.move_in_direction (agent_pos s) d) = false →
     ∃ s', get_next_state env s a = Some s' ∧ agent_pos s' = agent_pos s)
  ∧ (∀ (env : RoomEnv) (s : RoomState),
       agent_pos s = (0, 0) →
       ∃ s', get_next_state env s
               (Direction.get_number_from_direction Direction.WEST) = Some s'
             ∧ agent_pos s' = (0, 0))
  ∧ (∀ (env : RoomEnv) (s : RoomState) (d : Direction.t),
       agent_pos s = (0, 0) →
       in_bounds env (Direction.move_in_direction (0, 0) d) = false →
       ∃ s', get_next_state env s
               (Direction.get_number_from_direction d) = Some s'
             ∧ agent_pos s' = (0, 0))
  ∧ (∀ (env : RoomEnv),
       in_bounds env (Direction.move_in_direction (0, 0) Direction.NORTH)
       = false).
Proof.
  assert (∀ env s a d,
    Direction.get_direction_from_number a = Some d →
    in_bounds env (Direction.move_in_direction (agent_pos s) d) = false →
    ∃ s', get_next_state env s a = Some s' ∧ agent_pos s' = agent_pos s) as Hclamp.
  { intros env s a d Hd Hout.
    unfold get_next_state, Direction.move_in_direction_number.
    rewrite Hd; simpl. rewrite Hout. by eexists. }
  split_and!.
  - intros env s a d _. apply Hclamp.
  - intros env s Hpos. rewrite <-Hpos. apply (Hclamp _ _ _ Direction.WEST).
    + apply get_direction_of_number.
    + rewrite Hpos. unfold in_bounds, Direction.move_in_direction; simpl.
      done.
  - intros env s d Hpos Hout. rewrite <-Hpos. apply (Hclamp _ _ _ d).
    + apply get_direction_of_number.
    + by rewrite Hpos.
  - intros env. unfold in_bounds, Direction.move_in_direction; simpl.
    by rewrite andb_false_r.
Qed.

Lemma C5_boundary_clamp_witness :
  let env := mkRoomEnv 2 2 [(1, 1)] ∅ [] in
  let s := mkRoomState (0, 0) [((1, 1), true)] in
  ∃ s', get_next_state env s 3 = Some s' ∧ agent_pos s' = agent_pos s.
Proof.
  intros env s.
  apply (proj1 C5_boundary_clamp env s 3 Direction.WEST); reflexivity.
Defined.

(** C10 — The successor never has the agent on an intact vase.  For every
    input state, valid or not, and every action code in [0..4],
    [get_next_state] returns a state, and whatever state it returns has no
    vase with flag [True] under the agent: when the destination is a vase
    location its flag is [False]. *)
Theorem C10_successor_not_on_intact_vase (env : RoomEnv) (s : RoomState) (a : Z) :
  (0 ≤ a < nA → is_Some (get_next_state env s a))
  ∧ (∀ s', get_next_state env s a = Some s' →
       on_intact_vase (agent_pos s') (vase_states s') = false
       ∧ (agent_pos s' ∈ PyDict.keys (vase_states s') →
            PyDict.get pos_eqb (vase_states s') (agent_pos s') = Some false)).
Proof.
  split; [apply get_next_state_total|].
  intros s' Hstep. split; [by apply (get_next_state_not_on_intact env s s' a)|].
  rewrite (get_next_state_keys env s s' a Hstep).
  by apply (get_next_state_flag_here env s s' a).
Qed.

Lemma C10_successor_not_on_intact_vase_witness :
  let env := mkRoomEnv 2 2 [(0, 0)] ∅ [] in
  let s := mkRoomState (0, 0) [((0, 0), true)] in
  on_intact_vase (agent_pos s) (vase_states s) = true
  ∧ ∃ s', get_next_state env s 4 = Some s'
          ∧ on_intact_vase (agent_pos s') (vase_states s') = false.
Proof.
  intros env s. split; [reflexivity|].
  destruct (C10_successor_not_on_intact_vase env s 4) as [Htot Hvalid].
  exists (mkRoomState (0, 0) [((0, 0), false)]).
  split; [reflexivity|]. apply (Hvalid _ eq_refl).
Defined.

(** ** Equality and hashing of states *)

Lemma RoomState_eq_iff (s1 s2 : RoomState) :
  dict_wf (vase_states s1) → dict_wf (vase_states s2) →
  RoomState_eq s1 s2 = true ↔
  agent_pos s1 = agent_pos s2 ∧ vase_states s1 ≡ₚ vase_states s2.
Proof.
  intros Hwf1 Hwf2. unfold RoomState_eq.
  by rewrite andb_true_iff, pos_eqb_eq, pos_dict_eq_Permutation.
Qed.

Lemma hash_key_Permutation (s1 s2 : RoomState) :
  dict_wf (vase_states s1) →
  agent_pos s1 = agent_pos s2 → vase_states s1 ≡ₚ vase_states s2 →
  hash_key s1 = hash_key s2.
Proof.
  intros Hwf Hpos Hp. unfold hash_key.
  by rewrite (get_vals_Permutation _ _ Hwf Hp), Hpos.
Qed.

(** C7 — Equality and hash contract.  For states whose vase dicts are
    dicts (no key twice): two states are equal exactly when their agent
    positions are equal and their vase mappings have the same keys with the
    same flags; two states with the same position and the same entries,
    inserted in any order, are equal and give the same tuple to [hash], so
    equal states have equal hashes; the tuple is the agent position
    followed by the flags read in sorted order of the vase locations, and
    computing it never fails. *)
Theorem C7_eq_hash_contract (s1 s2 : RoomState) :
  dict_wf (vase_states s1) → dict_wf (vase_states s2) →
  (RoomState_eq s1 s2 = true ↔
     agent_pos s1 = agent_pos s2
     ∧ ∀ k, PyDict.get pos_eqb (vase_states s1) k
            = PyDict.get pos_eqb (vase_states s2) k)
  ∧ (agent_pos s1 = agent_pos s2 → vase_states s1 ≡ₚ vase_states s2 →
       RoomState_eq s1 s2 = true ∧ hash_key s1 = hash_key s2)
  ∧ (RoomState_eq s1 s2 = true →
       ∀ hash, RoomState_hash hash s1 = RoomState_hash hash s2)
  ∧ (∃ vals,
       hash_key s1 = Some ([PyInt (agent_pos s1).1; PyInt (agent_pos s1).2]
                           ++ (PyBool <$> vals))
       ∧ Forall2 (λ k v, (k, v) ∈ vase_states s1)
           (sorted (PyDict.keys (vase_states s1))) vals
       ∧ Sorted pos_le (sorted (PyDict.keys (vase_states s1)))
       ∧ sorted (PyDict.keys (vase_states s1)) ≡ₚ PyDict.keys (vase_states s1))
  ∧ (∀ hash, is_Some (RoomState_hash hash s1)).
Proof.
  intros Hwf1 Hwf2. split_and!.
  - rewrite RoomState_eq_iff by done. apply and_iff_compat_l.
    symmetry. by apply pos_dict_ext_Permutation.
  - intros Hpos Hp. split; [by apply RoomState_eq_iff|].
    by apply hash_key_Permutation.
  - intros [Hpos Hp]%RoomState_eq_iff hash; [|done..].
    unfold RoomState_hash. by rewrite (hash_key_Permutation s1 s2).
  - destruct (get_vals_is_Some (vase_states s1)) as [vals Hvals].
    exists vals. unfold hash_key. rewrite Hvals. split; [done|].
    split_and!.
    + apply mapM_Some_1 in Hvals. eapply Forall2_impl; [exact Hvals|].
      intros k v. apply pos_get_Some_elem_of.
    + apply Sorted_merge_sort; apply _.
    + apply merge_sort_Permutation.
  - intros hash. unfold RoomState_hash, hash_key.
    destruct (get_vals_is_Some (vase_states s1)) as [vals ->]. by eexists.
Qed.

Lemma C7_eq_hash_contract_witness :
  let s1 := mkRoomState (0, 0) [((1, 1), true); ((0, 1), false)] in
  let s2 := mkRoomState (0, 0) [((0, 1), false); ((1, 1), true)] in
  vase_states s1 ≠ vase_states s2
  ∧ RoomState_eq s1 s2 = true
  ∧ ∀ hash, RoomState_hash hash s1 = RoomState_hash hash s2.
Proof.
  intros s1 s2. split; [discriminate|]. split; [reflexivity|].
  assert (dict_wf (vase_states s1)) as Hwf1
    by (apply (bool_decide_unpack _); reflexivity).
  assert (dict_wf (vase_states s2)) as Hwf2
    by (apply (bool_decide_unpack _); reflexivity).
  destruct (C7_eq_hash_contract s1 s2 Hwf1 Hwf2) as (_ & _ & Hhash & _).
  apply Hhash. reflexivity.
Defined.

(** ** Feature extraction *)

Lemma count_false_entries (d : list (Pos * bool)) :
  length (filter (λ b, b = false) (PyDict.values d))
  = length (filter (λ kv, kv.2 = false) d).
Proof.
  unfold PyDict.values. induction d as [|[k v] d IH]; [done|].
  csimpl. rewrite !filter_cons. simpl.
  destruct (decide (v = false)); simpl; by rewrite IH.
Qed.

Lemma int_of_bool_decide (Q : Prop) `{Decision Q} :
  int_of_bool (bool_decide Q) = if decide Q then 1 else 0.
Proof. unfold int_of_bool. by destruct (decide Q); [rewrite bool_decide_true|rewrite bool_decide_false]. Qed.

Lemma int_of_pos_eqb (p q : Pos) :
  int_of_bool (pos_eqb p q) = if decide (p = q) then 1 else 0.
Proof.
  unfold int_of_bool. destruct (decide (p = q)) as [->|Hne].
  - by rewrite pos_eqb_refl.
  - by apply pos_eqb_neq in Hne as ->.
Qed.

(** C6 — Feature extraction.  For every state over the environment's vase
    locations, [s_to_f] returns a vector of length exactly
    [2 + |feature_locations|]: first the number of vase locations whose
    flag is [False], an integer in [[0, num_vases]]; then the 0/1 indicator
    of the agent being on a carpet location; then, in list order, one 0/1
    indicator per feature location of the agent being at that location. *)
Theorem C6_s_to_f (env : RoomEnv) (s : RoomState) :
  PyDict.keys (vase_states s) ≡ₚ vase_locations env →
  ∃ broken carpet : Z,
    s_to_f env s
    = [broken; carpet]
      ++ ((λ fpos, if decide (agent_pos s = fpos) then 1 else 0)
            <$> feature_locations env)
    ∧ length (s_to_f env s) = (2 + length (feature_locations env))%nat
    ∧ broken = Z.of_nat (length (filter (λ kv, kv.2 = false) (vase_states s)))
    ∧ 0 ≤ broken ≤ Z.of_nat (num_vases env)
    ∧ carpet = (if decide (agent_pos s ∈ carpet_locations env) then 1 else 0)
    ∧ Forall (λ z, z = 0 ∨ z = 1) (drop 1 (s_to_f env s)).
Proof.
  intros Hkeys.
  exists (Z.of_nat (length (filter (λ b, b = false)
                      (PyDict.values (vase_states s))))),
         (int_of_bool (bool_decide (agent_pos s ∈ carpet_locations env))).
  unfold s_to_f. cbv zeta. split_and!.
  - f_equal. apply list_fmap_ext. intros _ fpos _. apply int_of_pos_eqb.
  - simpl. by rewrite length_fmap.
  - by rewrite count_false_entries.
  - lia.
  - rewrite count_false_entries.
    apply inj_le. etrans; [apply length_filter|].
    unfold num_vases. rewrite <-Hkeys. unfold PyDict.keys.
    by rewrite length_fmap.
  - apply int_of_bool_decide.
  - simpl. apply Forall_cons. split.
    + unfold int_of_bool. destruct (bool_decide _); auto.
    + apply Forall_fmap, Forall_forall. intros fpos _. simpl.
      unfold int_of_bool. destruct (pos_eqb _ _); auto.
Qed.

Lemma C6_s_to_f_witness :
  let env := mkRoomEnv 2 2 [(1, 1); (0, 1)] {[ (0, 0) ]} [(0, 0); (1, 1)] in
  let s := mkRoomState (0, 0) [((0, 1), false); ((1, 1), true)] in
  s_to_f env s = [1; 1; 1; 0]
  ∧ ∃ broken carpet : Z,
      s_to_f env s
      = [broken; carpet]
        ++ ((λ fpos, if decide (agent_pos s = fpos) then 1 else 0)
              <$> feature_locations env)
      ∧ length (s_to_f env s) = (2 + length (feature_locations env))%nat
      ∧ broken = Z.of_nat (length (filter (λ kv, kv.2 = false) (vase_states s)))
      ∧ 0 ≤ broken ≤ Z.of_nat (num_vases env)
      ∧ carpet = (if decide (agent_pos s ∈ carpet_locations env) then 1 else 0)
      ∧ Forall (λ z, z = 0 ∨ z = 1) (drop 1 (s_to_f env s)).
Proof.
  intros env s. split; [by vm_compute|].
  apply (C6_s_to_f env s). simpl. apply Permutation_swap.
Defined.

(** ** Enumeration: the loops *)

Lemma fold_left_ext {A B} (f g : A → B → A) (l : list B) (a : A) :
  (∀ a b, f a b = g a b) → fold_left f l a = fold_left g l a.
Proof.
  intros Hfg. revert a. induction l as [|b l IH]; intros a; simpl; [done|].
  by rewrite Hfg, IH.
Qed.

Lemma fold_left_bind {A B C} (f : A → C → A) (g : B → list C) (l : list B) (a : A) :
  fold_left f (l ≫= g) a = fold_left (λ a b, fold_left f (g b) a) l a.
Proof.
  revert a. induction l as [|b l IH]; intros a; csimpl; [done|].
  by rewrite fold_left_app, IH.
Qed.

Lemma product_bools_length (n : nat) (bs : list bool) :
  bs ∈ product_bools n ↔ length bs = n.
Proof.
  revert bs. induction n as [|n IH]; intros bs; cbn [product_bools].
  - rewrite list_elem_of_singleton. split; [by intros ->|].
    by intros ->%nil_length_inv.
  - rewrite list_elem_of_bind. split.
    + intros (b & (t & -> & Ht%IH)%list_elem_of_fmap & _). simpl. by rewrite Ht.
    + destruct bs as [|b t]; [done|]. intros [= Hlen]. exists b. split.
      * apply list_elem_of_fmap. exists t. split; [done|]. by apply IH.
      * destruct b; [left|right; left].
Qed.

Lemma product_bools_NoDup (n : nat) : NoDup (product_bools n).
Proof.
  induction n as [|n IH]; cbn [product_bools].
  - apply NoDup_singleton.
  - apply NoDup_bind.
    + intros b1 b2 l _ _ (t1 & -> & _)%list_elem_of_fmap
        (t2 & [= -> _] & _)%list_elem_of_fmap. done.
    + intros b _. apply NoDup_fmap_2; [|done]. by intros ?? [= ->].
    + apply NoDup_cons. split; [|apply NoDup_singleton].
      by intros ?%list_elem_of_singleton.
Qed.

Lemma elem_of_py_range (n k : Z) : k ∈ py_range n ↔ 0 ≤ k < n.
Proof. unfold py_range. rewrite elem_of_seqZ. lia. Qed.

Lemma elem_of_cells (env : RoomEnv) (p : Pos) :
  p ∈ cells env ↔ in_bounds env p = true.
Proof.
  unfold cells, in_bounds. destruct p as [x y]; simpl.
  rewrite !andb_true_iff, !Z.leb_le, !Z.ltb_lt. rewrite list_elem_of_bind.
  split.
  - intros (y' & (x' & Hin & Hx%elem_of_py_range)%list_elem_of_bind
              & Hy%elem_of_py_range).
    apply list_elem_of_singleton in Hin as [= -> ->]. lia.
  - intros Hb. exists y. split; [|apply elem_of_py_range; lia].
    apply list_elem_of_bind. exists x. split; [left|].
    apply elem_of_py_range; lia.
Qed.

Lemma NoDup_cells (env : RoomEnv) : NoDup (cells env).
Proof.
  unfold cells. apply NoDup_bind.
  - intros y1 y2 p _ _ (x1 & Hp1 & _)%list_elem_of_bind
      (x2 & Hp2 & _)%list_elem_of_bind.
    apply list_elem_of_singleton in Hp1, Hp2. by simplify_eq.
  - intros y _. apply NoDup_bind.
    + intros x1 x2 p _ _ Hp1%list_elem_of_singleton Hp2%list_elem_of_singleton.
      by simplify_eq.
    + intros x _. apply NoDup_singleton.
    + apply NoDup_seqZ.
  - apply NoDup_seqZ.
Qed.

(** The inner loops, one cell after the other. *)
Lemma enumerate_layout_cells (env : RoomEnv) (sn : list (RoomState * Z))
    (bools : list bool) :
  enumerate_layout env sn bools
  = fold_left (enumerate_visit (layout_of env bools)) (cells env) sn.
Proof.
  unfold enumerate_layout, cells, layout_of.
  rewrite fold_left_bind. apply fold_left_ext. intros a y.
  rewrite fold_left_bind. apply fold_left_ext. intros a' x. done.
Qed.

(** ** Enumeration: layouts and candidate states *)

Section enumeration.
Context (env : RoomEnv).
Hypothesis vase_locations_NoDup : NoDup (vase_locations env).

Implicit Types (s : RoomState) (bools : list bool) (pos : Pos).

Lemma layout_of_zip bools :
  length bools = num_vases env →
  layout_of env bools = zip (vase_locations env) bools.
Proof.
  intros Hlen. unfold layout_of. apply pos_of_pairs_NoDup.
  rewrite fst_zip; [done|]. unfold num_vases in Hlen. lia.
Qed.

Lemma layout_of_keys bools :
  length bools = num_vases env →
  PyDict.keys (layout_of env bools) = vase_locations env.
Proof.
  intros Hlen. rewrite layout_of_zip by done. unfold PyDict.keys.
  apply fst_zip. unfold num_vases in Hlen. lia.
Qed.

Lemma layout_of_values bools :
  length bools = num_vases env →
  PyDict.values (layout_of env bools) = bools.
Proof.
  intros Hlen. rewrite layout_of_zip by done. unfold PyDict.values.
  apply snd_zip. unfold num_vases in Hlen. lia.
Qed.

Lemma layout_of_inj bools1 bools2 :
  length bools1 = num_vases env → length bools2 = num_vases env →
  layout_of env bools1 = layout_of env bools2 → bools1 = bools2.
Proof.
  intros H1 H2 Heq.
  by rewrite <-(layout_of_values bools1), <-(layout_of_values bools2), Heq.
Qed.

(** Every dict over the vase locations is the layout of its values. *)
Lemma layout_of_state_over (d : list (Pos * bool)) :
  PyDict.keys d = vase_locations env →
  d = layout_of env (PyDict.values d)
  ∧ length (PyDict.values d) = num_vases env.
Proof.
  intros Hk.
  assert (length (PyDict.values d) = num_vases env) as Hlen.
  { unfold num_vases. rewrite <-Hk. unfold PyDict.keys, PyDict.values.
    by rewrite !length_fmap. }
  split; [|done]. rewrite layout_of_zip by done. rewrite <-Hk.
  symmetry. apply zip_fst_snd.
Qed.

Lemma state_over_wf s : state_over env s → dict_wf (vase_states s).
Proof. unfold state_over, dict_wf, PyDict.keys. by intros ->. Qed.

(** On the states over the vase locations, [__eq__] decides equality. *)
Lemma RoomState_eq_over s1 s2 :
  state_over env s1 → state_over env s2 →
  RoomState_eq s1 s2 = true ↔ s1 = s2.
Proof.
  intros Ho1 Ho2.
  rewrite RoomState_eq_iff by (by apply state_over_wf). split.
  - intros [Hpos Hp]. destruct s1 as [p1 d1], s2 as [p2 d2]; simpl in *.
    f_equal; [done|]. apply pos_dict_same_keys_eq; [|by apply (state_over_wf (mkRoomState p1 d1))|done].
    unfold state_over, PyDict.keys in *. simpl in *. congruence.
  - by intros ->.
Qed.

Lemma valid_state_over s : valid_state env s → state_over env s.
Proof.
  intros (bools & (Hlen & _ & _) & Hvs). unfold state_over.
  rewrite Hvs. by apply layout_of_keys.
Qed.

Lemma elem_of_candidates s : s ∈ candidates env ↔ valid_state env s.
Proof.
  unfold candidates, valid_state, valid_pair. rewrite list_elem_of_bind.
  split.
  - intros (bools & (pos & -> & [Hv Hc%elem_of_cells]%list_elem_of_filter)%list_elem_of_fmap
              & Hb%product_bools_length).
    exists bools. simpl. done.
  - intros (bools & (Hlen & Hin & Hv) & Hvs). exists bools.
    split; [|by apply product_bools_length].
    apply list_elem_of_fmap. exists (agent_pos s). split.
    + destruct s; simpl in *. by subst.
    + apply list_elem_of_filter. split; [done|]. by apply elem_of_cells.
Qed.

Lemma NoDup_candidates : NoDup (candidates env).
Proof.
  unfold candidates. apply NoDup_bind.
  - intros b1 b2 s Hb1%product_bools_length Hb2%product_bools_length
      (p1 & -> & _)%list_elem_of_fmap (p2 & [= _ Hl] & _)%list_elem_of_fmap.
    by apply layout_of_inj.
  - intros bools _. apply NoDup_fmap_2; [by intros ?? [= ->]|].
    apply NoDup_filter, NoDup_cells.
  - apply product_bools_NoDup.
Qed.

Lemma candidates_over : Forall (state_over env) (candidates env).
Proof.
  apply Forall_forall. intros s Hs. by apply valid_state_over, elem_of_candidates.
Qed.

(** The loops hand exactly the candidates, in order, to the table. *)
Lemma enumerate_visit_fold (vs : list (Pos * bool)) (l : list Pos)
    (sn : list (RoomState * Z)) :
  fold_left (enumerate_visit vs) l sn
  = fold_left add_state
      ((λ pos, mkRoomState pos vs)
         <$> filter (λ pos, on_intact_vase pos vs = false) l) sn.
Proof.
  revert sn. induction l as [|p l IH]; intros sn; [done|].
  rewrite filter_cons. simpl. unfold enumerate_visit at 2.
  destruct (on_intact_vase p vs) eqn:E.
  - rewrite decide_False by done. apply IH.
  - rewrite decide_True by done. csimpl. apply IH.
Qed.

Lemma enumerate_state_num_candidates :
  enumerate_state_num env = fold_left add_state (candidates env) [].
Proof.
  unfold enumerate_state_num, candidates. rewrite fold_left_bind.
  apply fold_left_ext. intros sn bools.
  by rewrite enumerate_layout_cells, enumerate_visit_fold.
Qed.

(** A state not yet in the table gets the next index, at the end. *)
Lemma add_state_fresh (sn : list (RoomState * Z)) s :
  Forall (state_over env) sn.*1 → state_over env s → s ∉ sn.*1 →
  add_state sn s = sn ++ [(s, Z.of_nat (length sn))].
Proof.
  intros Hsn Hs Hnin. unfold add_state.
  assert (PyDict.get RoomState_eq sn s = None) as Hget.
  { by apply (dict_get_None_not_elem _ (state_over env) RoomState_eq_over). }
  rewrite (proj2 (dict_contains_false _ _ _) Hget).
  by apply dict_set_absent.
Qed.

Lemma fold_add_state (cands : list RoomState) (sn : list (RoomState * Z)) :
  Forall (state_over env) (sn.*1 ++ cands) → NoDup (sn.*1 ++ cands) →
  fold_left add_state cands sn
  = sn ++ imap (λ i s, (s, Z.of_nat (length sn + i))) cands.
Proof.
  revert sn. induction cands as [|c cands IH]; intros sn Hover Hnd.
  - simpl. by rewrite app_nil_r.
  - simpl. apply Forall_app in Hover as [Hsn [Hc Hcands]%Forall_cons].
    pose proof Hnd as (Hnd1 & Hd & [Hc' Hnd2]%NoDup_cons)%NoDup_app.
    rewrite add_state_fresh; [|done|done|].
    + rewrite IH.
      * rewrite <-(assoc_L (++)). f_equal. simpl. f_equal.
        { f_equal. lia. }
        apply imap_ext. intros i x _. simpl. rewrite length_app. simpl.
        f_equal. lia.
      * rewrite fmap_app, <-(assoc_L (++)). simpl.
        apply Forall_app. split; [done|]. by apply Forall_cons.
      * by rewrite fmap_app, <-(assoc_L (++)).
    + intros Hin. apply (Hd c Hin). left.
Qed.

(** The table built by [enumerate_states]: the candidates in order, each
    with its position as index. *)
Lemma enumerate_state_num_imap :
  enumerate_state_num env = imap (λ i s, (s, Z.of_nat i)) (candidates env).
Proof.
  rewrite enumerate_state_num_candidates, fold_add_state; simpl.
  - done.
  - apply candidates_over.
  - apply NoDup_candidates.
Qed.

Lemma enumerated_candidates : enumerated env = candidates env.
Proof.
  unfold enumerated, PyDict.keys. rewrite enumerate_state_num_imap.
  rewrite fmap_imap. simpl. rewrite <-(list_fmap_id (candidates env)) at 2.
  by rewrite <-imap_const.
Qed.
End enumeration.

(** ** The index tables *)

Lemma dict_get_Some_eqb {K V} (eqb : K → K → bool) (d : list (K * V)) (k : K) (v : V) :
  PyDict.get eqb d k = Some v → ∃ k', (k', v) ∈ d ∧ eqb k' k = true.
Proof.
  induction d as [|[k0 v0] d IH]; simpl; [done|].
  destruct (eqb k0 k) eqn:E.
  - intros [= ->]. exists k0. split; [left|done].
  - intros (k' & Hin & Heq)%IH. exists k'. split; [by right|done].
Qed.

Lemma elem_of_numbered {A} (l : list A) (x : A) (i : Z) :
  (x, i) ∈ imap (λ n y, (y, Z.of_nat n)) l ↔
  ∃ n, i = Z.of_nat n ∧ l !! n = Some x.
Proof.
  rewrite list_elem_of_lookup. setoid_rewrite list_lookup_imap. split.
  - intros (n & Hn). exists n. destruct (l !! n); simplify_eq/=. done.
  - intros (n & -> & Hn). exists n. by rewrite Hn.
Qed.

Lemma numbered_fst {A} (l : list A) : (imap (λ n y, (y, Z.of_nat n)) l).*1 = l.
Proof.
  rewrite fmap_imap. simpl. rewrite <-(list_fmap_id l) at 2.
  by rewrite <-imap_const.
Qed.

Lemma numbered_snd {A} (l : list A) :
  (imap (λ n y, (y, Z.of_nat n)) l).*2 = py_range (Z.of_nat (length l)).
Proof.
  apply list_eq. intros i. rewrite list_lookup_fmap, list_lookup_imap.
  unfold py_range. destruct (l !! i) as [x|] eqn:E; simpl.
  - symmetry. apply lookup_seqZ. split; [lia|].
    apply lookup_lt_Some in E. lia.
  - symmetry. apply lookup_seqZ_ge. apply lookup_ge_None in E. lia.
Qed.

Lemma prod_swap_fst {A B} (l : list (A * B)) : (prod_swap <$> l).*1 = l.*2.
Proof. induction l as [|[a b] l IH]; csimpl; [done|]. by rewrite IH. Qed.

Lemma NoDup_py_range (n : Z) : NoDup (py_range n).
Proof. apply NoDup_seqZ. Qed.

Lemma Z_eqb_spec_True (a b : Z) : True → True → (a =? b) = true ↔ a = b.
Proof. intros _ _. apply Z.eqb_eq. Qed.

Section tables.
Context (env : RoomEnv).
Hypothesis vase_locations_NoDup : NoDup (vase_locations env).

Implicit Types (s : RoomState) (i : Z).

Lemma tables_state_num :
  state_num (tables_of env) = imap (λ n s, (s, Z.of_nat n)) (candidates env).
Proof. by apply enumerate_state_num_imap. Qed.

Lemma tables_nS : nS (tables_of env) = Z.of_nat (length (candidates env)).
Proof.
  unfold tables_of; simpl. rewrite enumerate_state_num_imap by done.
  by rewrite length_imap.
Qed.

Lemma tables_num_state :
  num_state (tables_of env)
  = prod_swap <$> imap (λ n s, (s, Z.of_nat n)) (candidates env).
Proof.
  unfold tables_of; simpl. rewrite enumerate_state_num_imap by done.
  apply (dict_of_pairs_NoDup _ (λ _, True) Z_eqb_spec_True).
  - by apply Forall_forall.
  - rewrite prod_swap_fst, numbered_snd. apply NoDup_py_range.
Qed.

(** Looking up a state over the vase locations finds its position among
    the candidates. *)
Lemma get_state_num_Some s i :
  state_over env s →
  PyDict.get RoomState_eq (state_num (tables_of env)) s = Some i ↔
  ∃ n, i = Z.of_nat n ∧ candidates env !! n = Some s.
Proof.
  intros Hs. rewrite tables_state_num, <-elem_of_numbered. split.
  - apply (dict_get_Some_elem_of _ (state_over env) (RoomState_eq_over env vase_locations_NoDup)); [|done].
    rewrite numbered_fst. by apply candidates_over.
  - apply (dict_elem_of_get _ (state_over env) (RoomState_eq_over env vase_locations_NoDup)).
    + rewrite numbered_fst. by apply candidates_over.
    + rewrite numbered_fst. by apply NoDup_candidates.
Qed.

Lemma get_num_state_Some s i :
  PyDict.get Z.eqb (num_state (tables_of env)) i = Some s ↔
  ∃ n, i = Z.of_nat n ∧ candidates env !! n = Some s.
Proof.
  rewrite tables_num_state, <-elem_of_numbered.
  assert ((prod_swap <$> imap (λ n y, (y, Z.of_nat n)) (candidates env)).*1
          = py_range (Z.of_nat (length (candidates env)))) as Hk.
  { rewrite prod_swap_fst. apply numbered_snd. }
  assert ((i, s) ∈ prod_swap <$> imap (λ n y, (y, Z.of_nat n)) (candidates env)
          ↔ (s, i) ∈ imap (λ n y, (y, Z.of_nat n)) (candidates env)) as <-.
  { rewrite list_elem_of_fmap. split.
    - by intros ([s' i'] & [= -> ->] & Hin).
    - intros Hin. by exists (s, i). }
  split.
  - apply (dict_get_Some_elem_of _ (λ _, True) Z_eqb_spec_True); [|done].
    by apply Forall_forall.
  - apply (dict_elem_of_get _ (λ _, True) Z_eqb_spec_True).
    + by apply Forall_forall.
    + rewrite Hk. apply NoDup_py_range.
Qed.

Lemma valid_state_iff s :
  valid_state env s ↔
  state_over env s
  ∧ in_bounds env (agent_pos s) = true
  ∧ on_intact_vase (agent_pos s) (vase_states s) = false.
Proof.
  split.
  - intros Hv. split; [by apply valid_state_over|].
    destruct Hv as (bools & (Hlen & Hin & Hv) & Hvs). by rewrite Hvs.
  - intros (Ho & Hin & Hv).
    destruct (layout_of_state_over env vase_locations_NoDup _ Ho) as [Hd Hlen].
    exists (PyDict.values (vase_states s)).
    split; [|done]. split_and!; [done..|]. by rewrite <-Hd.
Qed.

(** The successor of a valid state is a valid state. *)
Lemma get_next_state_valid s s' (a : Z) :
  valid_state env s → get_next_state env s a = Some s' → valid_state env s'.
Proof.
  rewrite !valid_state_iff. intros (Ho & Hin & _) Hstep. split_and!.
  - unfold state_over. by rewrite (get_next_state_keys env s s' a).
  - by apply (get_next_state_in_bounds env s s' a).
  - by apply (get_next_state_not_on_intact env s s' a).
Qed.

Lemma filter_eq_absent (l : list RoomState) s :
  Forall (state_over env) l → state_over env s → s ∉ l →
  filter (λ x, RoomState_eq x s = true) l = [].
Proof.
  intros Hl Hs. induction l as [|x l IH]; [done|].
  apply Forall_cons in Hl as [Hx Hl].
  intros [Hne Hnin]%not_elem_of_cons. rewrite filter_cons.
  rewrite decide_False; [by apply IH|].
  rewrite RoomState_eq_over by done. congruence.
Qed.

Lemma filter_eq_present (l : list RoomState) s :
  Forall (state_over env) l → NoDup l → s ∈ l →
  filter (λ x, RoomState_eq x s = true) l = [s].
Proof.
  intros Hl Hnd Hin.
  assert (state_over env s) as Hs by (rewrite Forall_forall in Hl; auto).
  induction l as [|x l IH]; [by apply elem_of_nil in Hin|].
  apply Forall_cons in Hl as [Hx Hl]. apply NoDup_cons in Hnd as [Hxl Hnd].
  rewrite filter_cons. apply elem_of_cons in Hin as [->|Hin].
  - rewrite decide_True by (by rewrite RoomState_eq_over).
    f_equal. by apply filter_eq_absent.
  - rewrite decide_False; [by apply IH|].
    rewrite RoomState_eq_over by done. intros ->. done.
Qed.
End tables.

(** ** Counting the valid pairs *)

Section counting.
Context (env : RoomEnv).
Hypothesis vase_locations_NoDup : NoDup (vase_locations env).

Lemma elem_of_brute_force_pairs (bools : list bool) (pos : Pos) :
  (bools, pos) ∈ brute_force_pairs env ↔ valid_pair env bools pos.
Proof.
  unfold brute_force_pairs, valid_pair. rewrite list_elem_of_bind. split.
  - intros (p & (bs & Hin & Hbs%product_bools_length)%list_elem_of_bind
              & Hp%elem_of_cells).
    destruct (on_intact_vase p (layout_of env bs)) eqn:E.
    + by apply elem_of_nil in Hin.
    + apply list_elem_of_singleton in Hin as [= -> ->]. done.
  - intros (Hlen & Hin & Hv). exists pos. split; [|by apply elem_of_cells].
    apply list_elem_of_bind. exists bools.
    split; [|by apply product_bools_length]. rewrite Hv. left.
Qed.

Lemma NoDup_brute_force_pairs : NoDup (brute_force_pairs env).
Proof.
  unfold brute_force_pairs. apply NoDup_bind; [| |apply NoDup_cells].
  - intros p1 p2 [bs p] _ _ (b1 & H1 & _)%list_elem_of_bind
      (b2 & H2 & _)%list_elem_of_bind.
    destruct (on_intact_vase p1 (layout_of env b1));
      [by apply elem_of_nil in H1|].
    destruct (on_intact_vase p2 (layout_of env b2));
      [by apply elem_of_nil in H2|].
    apply list_elem_of_singleton in H1, H2. congruence.
  - intros p _. apply NoDup_bind; [| |apply product_bools_NoDup].
    + intros b1 b2 [bs q] _ _ H1 H2.
      destruct (on_intact_vase p (layout_of env b1));
        [by apply elem_of_nil in H1|].
      destruct (on_intact_vase p (layout_of env b2));
        [by apply elem_of_nil in H2|].
      apply list_elem_of_singleton in H1, H2. congruence.
    + intros bs _. destruct (on_intact_vase p (layout_of env bs));
        [apply NoDup_nil_2|apply NoDup_singleton].
Qed.

(** Any duplicate-free listing of the valid pairs is as long as the list
    of candidate states. *)
Lemma valid_pairs_length (pairs : list (list bool * Pos)) :
  NoDup pairs →
  (∀ bools pos, (bools, pos) ∈ pairs ↔ valid_pair env bools pos) →
  length pairs = length (candidates env).
Proof.
  intros Hnd Hpairs.
  set (f := λ bp : list bool * Pos, mkRoomState bp.2 (layout_of env bp.1)).
  rewrite <-(length_fmap f pairs). apply Permutation_length.
  apply NoDup_Permutation.
  - apply NoDup_fmap_2_strong; [|done].
    intros [b1 p1] [b2 p2] [H1 _]%Hpairs [H2 _]%Hpairs [= -> Hl]. f_equal.
    by apply (layout_of_inj env).
  - by apply NoDup_candidates.
  - intros s. rewrite elem_of_candidates, list_elem_of_fmap. split.
    + intros ([bools pos] & -> & Hv%Hpairs). by exists bools.
    + intros (bools & Hv & Hvs). exists (bools, agent_pos s).
      split; [|by apply Hpairs]. destruct s; simpl in *. by subst.
Qed.
End counting.

(** C1 — Exact, duplicate-free enumeration.  For every grid and every list
    of pairwise distinct vase locations: the states returned by
    [enumerate_states] are exactly the valid states, each in the grid, over
    the vase locations and with the agent not on an intact vase; no two
    entries are equal, as values or by [__eq__]; every (layout, position)
    pair obeying the validity rule has exactly one enumerated state equal
    to it; and [nS] is the number of such pairs, as counted by an
    independent brute-force listing and by any other duplicate-free
    listing of them. *)
Theorem C1_enumerate_states_exact (env : RoomEnv) :
  NoDup (vase_locations env) →
  (enumerate_states env (mkTables [] [] 0)).1 = Ok (enumerated env)
  ∧ (∀ s, s ∈ enumerated env ↔ valid_state env s)
  ∧ (∀ s, s ∈ enumerated env →
       PyDict.keys (vase_states s) = vase_locations env
       ∧ in_bounds env (agent_pos s) = true
       ∧ on_intact_vase (agent_pos s) (vase_states s) = false)
  ∧ NoDup (enumerated env)
  ∧ (∀ i j s1 s2,
       enumerated env !! i = Some s1 → enumerated env !! j = Some s2 →
       RoomState_eq s1 s2 = true → i = j)
  ∧ (∀ bools pos, valid_pair env bools pos →
       filter (λ s, RoomState_eq s (mkRoomState pos (layout_of env bools)) = true)
         (enumerated env)
       = [mkRoomState pos (layout_of env bools)])
  ∧ nS (tables_of env) = brute_force_count env
  ∧ NoDup (brute_force_pairs env)
  ∧ (∀ bools pos, (bools, pos) ∈ brute_force_pairs env ↔ valid_pair env bools pos)
  ∧ (∀ pairs : list (list bool * Pos),
       NoDup pairs →
       (∀ bools pos, (bools, pos) ∈ pairs ↔ valid_pair env bools pos) →
       nS (tables_of env) = Z.of_nat (length pairs)).
Proof.
  intros Hnd. rewrite enumerated_candidates by done. split_and!.
  - unfold enumerate_states; simpl. f_equal. by apply enumerated_candidates.
  - intros s. by apply elem_of_candidates.
  - intros s Hs%elem_of_candidates. by apply valid_state_iff in Hs.
  - by apply NoDup_candidates.
  - intros i j s1 s2 H1 H2 Heq.
    apply (RoomState_eq_over env Hnd) in Heq as ->.
    + apply (NoDup_lookup (candidates env) i j s2); [|done..].
      by apply NoDup_candidates.
    + pose proof (candidates_over env Hnd) as Ho. rewrite Forall_forall in Ho.
      apply Ho. by apply list_elem_of_lookup_2 in H1.
    + pose proof (candidates_over env Hnd) as Ho. rewrite Forall_forall in Ho.
      apply Ho. by apply list_elem_of_lookup_2 in H2.
  - intros bools pos Hv. apply (filter_eq_present env Hnd).
    + by apply candidates_over.
    + by apply NoDup_candidates.
    + apply elem_of_candidates. by exists bools.
  - rewrite tables_nS by done. unfold brute_force_count. f_equal. symmetry.
    apply (valid_pairs_length env Hnd).
    + apply NoDup_brute_force_pairs.
    + by apply elem_of_brute_force_pairs.
  - apply NoDup_brute_force_pairs.
  - by apply elem_of_brute_force_pairs.
  - intros pairs Hp Hiff. rewrite tables_nS by done. f_equal. symmetry.
    by apply (valid_pairs_length env Hnd).
Qed.

Lemma C1_enumerate_states_exact_witness :
  let env := mkRoomEnv 2 2 [(1, 1)] ∅ [] in
  NoDup (vase_locations env)
  ∧ nS (tables_of env) = 7
  ∧ nS (tables_of env) = brute_force_count env
  ∧ (∀ s, s ∈ enumerated env ↔ valid_state env s)
  ∧ NoDup (enumerated env).
Proof.
  intros env.
  assert (NoDup (vase_locations env)) as Hnd by apply NoDup_singleton.
  destruct (C1_enumerate_states_exact env Hnd)
    as (_ & Hexact & _ & Hnodup & _ & _ & Hcount & _).
  split; [exact Hnd|]. split; [reflexivity|]. split; [exact Hcount|].
  split; [exact Hexact|exact Hnodup].
Defined.

(** C2 — Closure.  For every enumerated state and every action code in
    [0..4], [get_next_state] returns a state that is itself one of the
    enumerated states, so a key equal to it is present in the index table
    and [get_num_from_state] finds its index, which lies in [[0, nS)]. *)
Theorem C2_closure (env : RoomEnv) (s : RoomState) (a : Z) :
  NoDup (vase_locations env) →
  s ∈ enumerated env →
  0 ≤ a < nA →
  ∃ s' i,
    get_next_state env s a = Some s'
    ∧ s' ∈ enumerated env
    ∧ (∃ k, k ∈ PyDict.keys (state_num (tables_of env))
            ∧ RoomState_eq k s' = true)
    ∧ get_num_from_state s' (tables_of env) = (Ok i, tables_of env)
    ∧ 0 ≤ i < nS (tables_of env).
Proof.
  intros Hnd Hs Ha.
  destruct (get_next_state_total env s a Ha) as [s' Hstep].
  rewrite enumerated_candidates in * by done.
  apply elem_of_candidates in Hs.
  pose proof (get_next_state_valid env Hnd s s' a Hs Hstep) as Hv'.
  pose proof (valid_state_over env Hnd s' Hv') as Ho'.
  pose proof Hv' as Hin'. apply elem_of_candidates in Hin'.
  destruct (proj1 (list_elem_of_lookup _ _) Hin') as [n Hn].
  exists s', (Z.of_nat n). split_and!.
  - done.
  - done.
  - exists s'. split.
    + rewrite tables_state_num by done. unfold PyDict.keys.
      by rewrite numbered_fst.
    + by apply (RoomState_eq_over env Hnd).
  - unfold get_num_from_state, subscript.
    rewrite (proj2 (get_state_num_Some env Hnd s' (Z.of_nat n) Ho')); [done|].
    by exists n.
  - lia.
  - rewrite tables_nS by done. apply lookup_lt_Some in Hn. lia.
Qed.

Lemma C2_closure_witness :
  let env := mkRoomEnv 2 2 [(1, 1)] ∅ [] in
  let s := mkRoomState (1, 0) [((1, 1), true)] in
  ∃ s' i,
    get_next_state env s 1 = Some s'
    ∧ s' ∈ enumerated env
    ∧ (∃ k, k ∈ PyDict.keys (state_num (tables_of env))
            ∧ RoomState_eq k s' = true)
    ∧ get_num_from_state s' (tables_of env) = (Ok i, tables_of env)
    ∧ 0 ≤ i < nS (tables_of env).
Proof.
  intros env s. apply (C2_closure env s 1).
  - apply NoDup_singleton.
  - apply (bool_decide_unpack _). vm_compute. reflexivity.
  - unfold nA. lia.
Defined.

(** C3 — The index tables are mutually inverse and dense.  For every
    enumerated state [s], [get_num_from_state s] is some [i] and
    [get_state_from_num i] is [s]; for every index [i] in [[0, nS)],
    [get_state_from_num i] is an enumerated state whose number is [i]; the
    indices assigned, in insertion order, are [0, 1, ..., nS-1], and they
    are the keys of [num_state]. *)
Theorem C3_index_bijection (env : RoomEnv) :
  NoDup (vase_locations env) →
  (∀ s, s ∈ enumerated env →
     ∃ i, get_num_from_state s (tables_of env) = (Ok i, tables_of env)
          ∧ get_state_from_num i (tables_of env) = (Ok s, tables_of env)
          ∧ bind (get_num_from_state s) get_state_from_num (tables_of env)
            = (Ok s, tables_of env)
          ∧ RoomState_eq s s = true)
  ∧ (∀ i, 0 ≤ i < nS (tables_of env) →
       ∃ s, get_state_from_num i (tables_of env) = (Ok s, tables_of env)
            ∧ s ∈ enumerated env
            ∧ get_num_from_state s (tables_of env) = (Ok i, tables_of env)
            ∧ bind (get_state_from_num i) get_num_from_state (tables_of env)
              = (Ok i, tables_of env))
  ∧ PyDict.values (state_num (tables_of env)) = py_range (nS (tables_of env))
  ∧ PyDict.keys (num_state (tables_of env)) = py_range (nS (tables_of env))
  ∧ (∀ i, i ∈ PyDict.values (state_num (tables_of env))
          ↔ 0 ≤ i < nS (tables_of env))
  ∧ nS (tables_of env) = Z.of_nat (length (enumerated env)).
Proof.
  intros Hnd. rewrite enumerated_candidates by done.
  assert (PyDict.values (state_num (tables_of env))
          = py_range (nS (tables_of env))) as Hvals.
  { rewrite tables_state_num, tables_nS by done. apply numbered_snd. }
  split_and!.
  - intros s Hs.
    pose proof (candidates_over env Hnd) as Ho. rewrite Forall_forall in Ho.
    destruct (proj1 (list_elem_of_lookup _ _) Hs) as [n Hn].
    assert (get_num_from_state s (tables_of env)
            = (Ok (Z.of_nat n), tables_of env)) as Hnum.
    { unfold get_num_from_state, subscript.
      rewrite (proj2 (get_state_num_Some env Hnd s (Z.of_nat n) (Ho s Hs)));
        [done|]. by exists n. }
    assert (get_state_from_num (Z.of_nat n) (tables_of env)
            = (Ok s, tables_of env)) as Hstate.
    { unfold get_state_from_num, subscript.
      rewrite (proj2 (get_num_state_Some env Hnd s (Z.of_nat n))); [done|].
      by exists n. }
    exists (Z.of_nat n). split_and!; [done..| |].
    + unfold bind. by rewrite Hnum.
    + apply (RoomState_eq_over env Hnd); auto.
  - intros i Hi. rewrite tables_nS in Hi by done.
    destruct (lookup_lt_is_Some_2 (candidates env) (Z.to_nat i)) as [s Hs];
      [lia|].
    pose proof (candidates_over env Hnd) as Ho. rewrite Forall_forall in Ho.
    assert (s ∈ candidates env) as Hin by (by apply list_elem_of_lookup_2 in Hs).
    assert (get_state_from_num i (tables_of env) = (Ok s, tables_of env))
      as Hstate.
    { unfold get_state_from_num, subscript.
      rewrite (proj2 (get_num_state_Some env Hnd s i)); [done|].
      exists (Z.to_nat i). split; [lia|done]. }
    assert (get_num_from_state s (tables_of env) = (Ok i, tables_of env))
      as Hnum.
    { unfold get_num_from_state, subscript.
      rewrite (proj2 (get_state_num_Some env Hnd s i (Ho s Hin))); [done|].
      exists (Z.to_nat i). split; [lia|done]. }
    exists s. split_and!; [done..|]. unfold bind. by rewrite Hstate.
  - done.
  - rewrite tables_num_state, tables_nS by done. unfold PyDict.keys.
    rewrite prod_swap_fst. apply numbered_snd.
  - intros i. rewrite Hvals. apply elem_of_py_range.
  - by apply tables_nS.
Qed.

Lemma C3_index_bijection_witness :
  let env := mkRoomEnv 2 2 [(1, 1)] ∅ [] in
  get_state_from_num 6 (tables_of env)
    = (Ok (mkRoomState (1, 1) [((1, 1), false)]), tables_of env)
  ∧ PyDict.values (state_num (tables_of env)) = py_range (nS (tables_of env))
  ∧ PyDict.keys (num_state (tables_of env)) = py_range (nS (tables_of env)).
Proof.
  intros env. split; [reflexivity|].
  assert (NoDup (vase_locations env)) as Hnd by apply NoDup_singleton.
  destruct (C3_index_bijection env Hnd) as (_ & _ & Hvals & Hkeys & _).
  split; [exact Hvals|exact Hkeys].
Defined.

(** C8 — Index-lookup failure is loud.  For every state with no equal key
    in [state_num], [get_num_from_state] raises [KeyError], and for every
    number that is not a key of [num_state], in particular every number
    outside [[0, nS)] of an environment's tables, [get_state_from_num]
    raises [KeyError]; a lookup that returns a value returns the value
    stored under an equal key, never a default; and no lookup, failed or
    not, changes the tables. *)
Theorem C8_lookup_failure_is_loud (self : Tables) (state : RoomState) (num : Z) :
  ((∀ k, k ∈ PyDict.keys (state_num self) → RoomState_eq k state = false) →
     get_num_from_state state self = (KeyError, self))
  ∧ (num ∉ PyDict.keys (num_state self) →
       get_state_from_num num self = (KeyError, self))
  ∧ (∀ i, (get_num_from_state state self).1 = Ok i →
       ∃ k, (k, i) ∈ state_num self ∧ RoomState_eq k state = true)
  ∧ (∀ s, (get_state_from_num num self).1 = Ok s → (num, s) ∈ num_state self)
  ∧ (get_num_from_state state self).2 = self
  ∧ (get_state_from_num num self).2 = self
  ∧ (∀ env, NoDup (vase_locations env) → self = tables_of env →
       ¬ (0 ≤ num < nS self) →
       get_state_from_num num self = (KeyError, self))
  ∧ (∀ env, NoDup (vase_locations env) → self = tables_of env →
       state_over env state → state ∉ enumerated env →
       get_num_from_state state self = (KeyError, self)).
Proof.
  assert (num ∉ PyDict.keys (num_state self) →
          get_state_from_num num self = (KeyError, self)) as Hnum.
  { intros Hnin. unfold get_state_from_num, subscript.
    rewrite (proj2 (dict_get_None_not_elem Z.eqb (λ _, True) Z_eqb_spec_True
                      (num_state self) num (Forall_true _ _ (λ _, I)) I));
      done. }
  split_and!.
  - intros Habs. unfold get_num_from_state, subscript.
    by rewrite (proj2 (dict_get_None_iff RoomState_eq (state_num self) state)).
  - done.
  - intros i. unfold get_num_from_state, subscript; simpl.
    destruct (PyDict.get RoomState_eq (state_num self) state) as [i'|] eqn:E;
      [|done].
    intros [= ->]. by apply dict_get_Some_eqb in E.
  - intros s. unfold get_state_from_num, subscript; simpl.
    destruct (PyDict.get Z.eqb (num_state self) num) as [s'|] eqn:E; [|done].
    intros [= ->].
    apply (dict_get_Some_elem_of Z.eqb (λ _, True) Z_eqb_spec_True); [|done..].
    by apply Forall_true.
  - done.
  - done.
  - intros env Hnd -> Hout. apply Hnum.
    unfold PyDict.keys. rewrite tables_num_state, prod_swap_fst by done.
    rewrite numbered_snd, elem_of_py_range. rewrite tables_nS in Hout by done.
    lia.
  - intros env Hnd -> Hover Hnin. unfold get_num_from_state, subscript.
    assert ((state_num (tables_of env)).*1 = enumerated env) as Hkeys.
    { rewrite tables_state_num, numbered_fst by done.
      by rewrite enumerated_candidates. }
    assert (Forall (state_over env) (state_num (tables_of env)).*1) as Hall.
    { rewrite Hkeys, enumerated_candidates by done. by apply candidates_over. }
    rewrite (proj2 (dict_get_None_not_elem RoomState_eq (state_over env)
                      (RoomState_eq_over env Hnd) _ state Hall Hover));
      [done|].
    by rewrite Hkeys.
Qed.

Lemma C8_lookup_failure_is_loud_witness :
  let env := mkRoomEnv 2 2 [(1, 1)] ∅ [] in
  let state := mkRoomState (1, 1) [((1, 1), true)] in
  get_num_from_state state (tables_of env) = (KeyError, tables_of env)
  ∧ get_state_from_num 7 (tables_of env) = (KeyError, tables_of env).
Proof.
  intros env state.
  destruct (C8_lookup_failure_is_loud (tables_of env) state 7)
    as (Habsent & _ & _ & _ & _ & _ & Hrange & _).
  split.
  - apply Habsent. apply Forall_forall.
    apply (bool_decide_unpack _). vm_compute. reflexivity.
  - apply (Hrange env); [apply NoDup_singleton|reflexivity|].
    vm_compute. intros [_ H]. discriminate H.
Defined.

(** ** The transition function on objects *)

Lemma get_next_state_obj_inv (env : RoomEnv) (h h' : heap) (state state' : nat)
    (a : Z) :
  get_next_state_obj env h state a = Some (h', state') →
  ∃ p vr d dir,
    h !! state = Some (OState p vr)
    ∧ h !! vr = Some (ODict d)
    ∧ Direction.get_direction_from_number a = Some dir
    ∧ let new := Direction.move_in_direction p dir in
      let p' := if in_bounds env new then new else p in
      let d' := if PyDict.contains pos_eqb d p'
                then PyDict.set pos_eqb d p' false else d in
      h' = h ++ [ODict d'; OState p' (length h)]
      ∧ state' = S (length h).
Proof.
  unfold get_next_state_obj, Direction.move_in_direction_number.
  destruct (h !! state) as [[d0|p vr]|] eqn:Hstate; [done| |done].
  destruct (Direction.get_direction_from_number a) as [dir|]; [|done].
  simpl. unfold deepcopy.
  destruct (h !! vr) as [[d|p0 vr0]|] eqn:Hvr; [|done..].
  simpl. unfold contains_ref, setitem.
  rewrite (list_lookup_middle h [] (ODict d) (length h) eq_refl). simpl.
  set (p' := if in_bounds env (Direction.move_in_direction p dir)
             then Direction.move_in_direction p dir else p).
  intros Hres. exists p, vr, d, dir.
  split; [done|]. split; [done|]. split; [done|]. simpl.
  fold p'. destruct (PyDict.contains pos_eqb d p') eqn:Hc; simpl in Hres.
  - unfold alloc in Hres. injection Hres as <- <-.
    rewrite insert_app_r_alt by lia. rewrite Nat.sub_diag. simpl.
    rewrite length_app. simpl. rewrite <-(assoc_L (++)). simpl.
    split; [done|lia].
  - unfold alloc in Hres. injection Hres as <- <-.
    rewrite length_app. simpl. rewrite <-(assoc_L (++)). simpl.
    split; [done|lia].
Qed.

(** C9 — Frame property of the transition.  [get_next_state] works on a
    deep copy of the input's vase dict: after the call every object that
    existed before, the input state object and the dict it refers to among
    them, is exactly as it was, so the input's position and its mapping
    (keys and flags) are unchanged; the successor is a new state object
    with a new dict, distinct from the input's, and its value is the one
    the transition function computes from the input's value. *)
Theorem C9_frame (env : RoomEnv) (h h' : heap) (state state' : nat) (a : Z) :
  get_next_state_obj env h state a = Some (h', state') →
  (∀ r o, h !! r = Some o → h' !! r = Some o)
  ∧ state_value h' state = state_value h state
  ∧ (∃ p vr p' vr',
       h !! state = Some (OState p vr)
       ∧ h' !! state = Some (OState p vr)
       ∧ h' !! vr = h !! vr
       ∧ h' !! state' = Some (OState p' vr')
       ∧ vr' ≠ vr ∧ h !! vr' = None ∧ h !! state' = None)
  ∧ (∃ s s',
       state_value h state = Some s
       ∧ state_value h' state' = Some s'
       ∧ get_next_state env s a = Some s').
Proof.
  intros (p & vr & d & dir & Hstate & Hvr & Hdir & Hh' & ->)%get_next_state_obj_inv.
  simpl in Hh'.
  set (p' := if in_bounds env (Direction.move_in_direction p dir)
             then Direction.move_in_direction p dir else p) in *.
  set (d' := if PyDict.contains pos_eqb d p'
             then PyDict.set pos_eqb d p' false else d) in *.
  assert (∀ r o, h !! r = Some o → h' !! r = Some o) as Hframe.
  { intros r o Hr. rewrite Hh'. by apply lookup_app_l_Some. }
  assert (h' !! length h = Some (ODict d')) as Hnew.
  { rewrite Hh'. by apply list_lookup_middle. }
  assert (h' !! S (length h) = Some (OState p' (length h))) as Hnew'.
  { rewrite Hh'. rewrite lookup_app_r by lia.
    by replace (S (length h) - length h)%nat with 1%nat by lia. }
  split_and!.
  - done.
  - unfold state_value. rewrite (Hframe _ _ Hstate), Hstate.
    by rewrite (Hframe _ _ Hvr), Hvr.
  - exists p, vr, p', (length h). split_and!.
    + done.
    + by apply Hframe.
    + rewrite Hvr. by apply Hframe.
    + done.
    + apply lookup_lt_Some in Hvr. lia.
    + apply lookup_ge_None. lia.
    + apply lookup_ge_None. lia.
  - exists (mkRoomState p d), (mkRoomState p' d'). split_and!.
    + unfold state_value. by rewrite Hstate, Hvr.
    + unfold state_value. by rewrite Hnew', Hnew.
    + unfold get_next_state, Direction.move_in_direction_number.
      rewrite Hdir. done.
Qed.

Lemma C9_frame_witness :
  let env := mkRoomEnv 2 2 [(1, 1)] ∅ [] in
  let h := [ODict [((1, 1), true)]; OState (1, 0) 0%nat] in
  ∃ h' state',
    get_next_state_obj env h 1%nat 1 = Some (h', state')
    ∧ state_value h' state' = Some (mkRoomState (1, 1) [((1, 1), false)])
    ∧ state_value h' 1%nat = Some (mkRoomState (1, 0) [((1, 1), true)])
    ∧ ∀ r o, h !! r = Some o → h' !! r = Some o.
Proof.
  intros env h.
  exists [ODict [((1, 1), true)]; OState (1, 0) 0%nat;
          ODict [((1, 1), false)]; OState (1, 1) 2%nat], 3%nat.
  split; [reflexivity|]. split; [reflexivity|]. split; [reflexivity|].
  apply (C9_frame env h _ 1%nat 3%nat 1). reflexivity.
Defined.


(** * Further properties of the transition function *)





Lemma count_false_set (d : list (Pos * bool)) (k : Pos) :
  length (filter (λ b, b = false) (PyDict.values (PyDict.set pos_eqb d k false)))
  = (length (filter (λ b, b = false) (PyDict.values d))
     + match PyDict.get pos_eqb d k with
       | Some true | None => 1
       | Some false => 0
       end)%nat.
Proof.
  unfold PyDict.values. induction d as [|[k0 v0] d IH]; [done|].
  simpl. destruct (pos_eqb k0 k) eqn:E; csimpl.
  - rewrite !filter_cons. simpl. destruct v0; simpl; lia.
  - rewrite !filter_cons. destruct (decide (v0 = false)); simpl; rewrite IH; lia.
Qed.

Lemma s_to_f_head (env : RoomEnv) (s : RoomState) :
  s_to_f env s !! 0%nat
  = Some (Z.of_nat (length (filter (λ b, b = false)
                              (PyDict.values (vase_states s))))).
Proof. done. Qed.

(** X2 — Vases are only ever broken.  Across a transition the first
    feature (the number of broken vases) grows by one when the agent
    arrives on a vase that was intact and is unchanged otherwise, and every
    vase that was broken before is broken after. *)
Theorem X2_broken_count_step (env : RoomEnv) (s s' : RoomState) (a : Z) :
  get_next_state env s a = Some s' →
  (∃ b, s_to_f env s !! 0%nat = Some b
        ∧ s_to_f env s' !! 0%nat
          = Some (b + (if on_intact_vase (agent_pos s') (vase_states s)
                       then 1 else 0)))
  ∧ (∀ q, PyDict.get pos_eqb (vase_states s) q = Some false →
          PyDict.get pos_eqb (vase_states s') q = Some false).
Proof.
  intros Hstep. split.
  - rewrite !s_to_f_head. eexists. split; [done|]. f_equal.
    destruct (get_next_state_inv _ _ _ _ Hstep) as (d & _ & _ & ->).
    unfold on_intact_vase.
    destruct (PyDict.contains pos_eqb (vase_states s) (agent_pos s')) eqn:Hc;
      simpl; [|lia].
    rewrite count_false_set. apply dict_contains_get in Hc as [v Hv].
    rewrite Hv. destruct v; lia.
  - intros q Hq. destruct (decide (q = agent_pos s')) as [->|Hne].
    + apply (get_next_state_flag_here env s s' a Hstep).
      apply pos_contains_elem_of, dict_contains_get. by eexists.
    + by rewrite (get_next_state_flag_other env s s' a q Hstep Hne).
Qed.

Lemma X2_broken_count_step_witness :
  let env := mkRoomEnv 2 2 [(1, 1); (0, 1)] ∅ [] in
  let s := mkRoomState (1, 0) [((1, 1), true); ((0, 1), false)] in
  let s' := mkRoomState (1, 1) [((1, 1), false); ((0, 1), false)] in
  s_to_f env s !! 0%nat = Some 1
  ∧ ∃ b, s_to_f env s !! 0%nat = Some b
         ∧ s_to_f env s' !! 0%nat
           = Some (b + (if on_intact_vase (agent_pos s') (vase_states s)
                        then 1 else 0)).
Proof.
  intros env s s'. split; [reflexivity|].
  apply (X2_broken_count_step env s s' 1). reflexivity.
Defined.

(** X3 — The agent moves by at most one cell and only onto grid cells.
    Whatever the input state, the successor's position differs from the
    input's by at most one step along one axis; if it differs at all it is
    inside the grid; and an agent inside the grid stays inside. *)
Theorem X3_moves_one_cell_into_grid (env : RoomEnv) (s s' : RoomState) (a : Z) :
  get_next_state env s a = Some s' →
  Z.abs ((agent_pos s').1 - (agent_pos s).1)
    + Z.abs ((agent_pos s').2 - (agent_pos s).2) ≤ 1
  ∧ (agent_pos s' ≠ agent_pos s → in_bounds env (agent_pos s') = true)
  ∧ (in_bounds env (agent_pos s) = true → in_bounds env (agent_pos s') = true).
Proof.
  intros Hstep. split_and!.
  - destruct (get_next_state_inv _ _ _ _ Hstep) as (d & _ & -> & _).
    destruct (in_bounds env (Direction.move_in_direction (agent_pos s) d));
      [|lia].
    unfold Direction.move_in_direction. destruct d; simpl; lia.
  - destruct (get_next_state_inv _ _ _ _ Hstep) as (d & _ & Hpos & _).
    destruct (in_bounds env (Direction.move_in_direction (agent_pos s) d))
      eqn:E; rewrite Hpos; done.
  - intros Hin. by apply (get_next_state_in_bounds env s s' a).
Qed.

Lemma X3_moves_one_cell_into_grid_witness :
  let env := mkRoomEnv 2 2 [(1, 1)] ∅ [] in
  let s := mkRoomState (-1, 0) [((1, 1), true)] in
  let s' := mkRoomState (0, 0) [((1, 1), true)] in
  in_bounds env (agent_pos s) = false
  ∧ get_next_state env s 2 = Some s'
  ∧ in_bounds env (agent_pos s') = true.
Proof.
  intros env s s'. split; [reflexivity|]. split; [reflexivity|].
  destruct (X3_moves_one_cell_into_grid env s s' 2 eq_refl) as (_ & Hmoved & _).
  apply Hmoved. discriminate.
Defined.

(** * Trajectories and the index tables *)

Section trajectories.
Context (env : RoomEnv).
Hypothesis vase_locations_NoDup : NoDup (vase_locations env).

(** One step from any state of the environment inside the grid, valid or
    not, gives a valid state. *)
Lemma get_next_state_valid_of_over (s s' : RoomState) (a : Z) :
  state_over env s → in_bounds env (agent_pos s) = true →
  get_next_state env s a = Some s' → valid_state env s'.
Proof.
  intros Ho Hin Hstep. apply valid_state_iff; [done|]. split_and!.
  - unfold state_over. by rewrite (get_next_state_keys env s s' a).
  - by apply (get_next_state_in_bounds env s s' a).
  - by apply (get_next_state_not_on_intact env s s' a).
Qed.

(** A valid state has an index, and the index leads back to it. *)
Lemma valid_state_indexed (s : RoomState) :
  valid_state env s →
  s ∈ enumerated env
  ∧ ∃ i, get_num_from_state s (tables_of env) = (Ok i, tables_of env)
         ∧ get_state_from_num i (tables_of env) = (Ok s, tables_of env)
         ∧ 0 ≤ i < nS (tables_of env).
Proof.
  intros Hv. pose proof (valid_state_over env vase_locations_NoDup s Hv) as Ho.
  rewrite enumerated_candidates by done.
  apply elem_of_candidates in Hv as Hin. split; [done|].
  destruct (proj1 (list_elem_of_lookup _ _) Hin) as [n Hn].
  exists (Z.of_nat n). split_and!.
  - unfold get_num_from_state, subscript.
    rewrite (proj2 (get_state_num_Some env vase_locations_NoDup s
                      (Z.of_nat n) Ho)); [done|]. by exists n.
  - unfold get_state_from_num, subscript.
    rewrite (proj2 (get_num_state_Some env vase_locations_NoDup s
                      (Z.of_nat n))); [done|]. by exists n.
  - lia.
  - rewrite tables_nS by done. apply lookup_lt_Some in Hn. lia.
Qed.

Lemma index_state_valid (i : Z) :
  0 ≤ i < nS (tables_of env) →
  ∃ s, get_state_from_num i (tables_of env) = (Ok s, tables_of env)
       ∧ valid_state env s.
Proof.
  intros Hi. rewrite tables_nS in Hi by done.
  destruct (lookup_lt_is_Some_2 (candidates env) (Z.to_nat i)) as [s Hs];
    [lia|].
  exists s. split.
  - unfold get_state_from_num, subscript.
    rewrite (proj2 (get_num_state_Some env vase_locations_NoDup s i)); [done|].
    exists (Z.to_nat i). split; [lia|done].
  - apply elem_of_candidates. by apply list_elem_of_lookup_2 in Hs.
Qed.
End trajectories.

(** X4 — Trajectories never leave the index table.  From any state over
    the environment's vase locations with the agent inside the grid, every
    list of action codes in [0..4] can be run to the end; the state reached
    is again over the vase locations and inside the grid; and as soon as
    one action was taken, or if the start was not on an intact vase, the
    state reached is enumerated and [get_num_from_state] returns its
    index. *)
Theorem X4_trajectory_indexed (env : RoomEnv) (s : RoomState) (actions : list Z) :
  NoDup (vase_locations env) →
  state_over env s →
  in_bounds env (agent_pos s) = true →
  Forall (λ a, 0 ≤ a < nA) actions →
  ∃ s', run env s actions = Some s'
        ∧ state_over env s'
        ∧ in_bounds env (agent_pos s') = true
        ∧ (actions ≠ [] ∨ on_intact_vase (agent_pos s) (vase_states s) = false →
           s' ∈ enumerated env
           ∧ ∃ i, get_num_from_state s' (tables_of env) = (Ok i, tables_of env)
                  ∧ 0 ≤ i < nS (tables_of env)).
Proof.
  intros Hnd Ho Hin Hacts. revert s Ho Hin.
  induction Hacts as [|a actions Ha Hacts IH]; intros s Ho Hin.
  - exists s. split_and!; [done..|]. intros [?|Hv]; [done|].
    assert (valid_state env s) as Hvalid by (by apply valid_state_iff).
    destruct (valid_state_indexed env Hnd s Hvalid) as (? & i & ? & _ & ?).
    split; [done|]. by exists i.
  - destruct (get_next_state_total env s a Ha) as [s1 Hstep].
    pose proof (get_next_state_valid_of_over env Hnd s s1 a Ho Hin Hstep) as Hv1.
    apply valid_state_iff in Hv1 as Hv1'; [|done].
    destruct Hv1' as (Ho1 & Hin1 & Hnv1).
    destruct (IH s1 Ho1 Hin1) as (s' & Hrun & Ho' & Hin' & Hidx).
    exists s'. split_and!; [|done..|].
    + simpl. by rewrite Hstep.
    + intros _. apply Hidx. by right.
Qed.

Lemma X4_trajectory_indexed_witness :
  let env := mkRoomEnv 2 2 [(1, 1)] ∅ [] in
  let s := mkRoomState (1, 1) [((1, 1), true)] in
  on_intact_vase (agent_pos s) (vase_states s) = true
  ∧ ∃ s', run env s [4; 3; 0] = Some s'
          ∧ s' ∈ enumerated env
          ∧ ∃ i, get_num_from_state s' (tables_of env) = (Ok i, tables_of env)
                 ∧ 0 ≤ i < nS (tables_of env).
Proof.
  intros env s. split; [reflexivity|].
  destruct (X4_trajectory_indexed env s [4; 3; 0])
    as (s' & Hrun & _ & _ & Hidx).
  - apply NoDup_singleton.
  - reflexivity.
  - reflexivity.
  - unfold nA. repeat (apply Forall_cons; split; [lia|]). apply Forall_nil_2.
  - exists s'. split; [exact Hrun|]. apply Hidx. left. discriminate.
Defined.

(** X5 — The transition is well defined on indices.  For every index in
    [[0, nS)] and every action code in [0..4], decoding the index, taking
    the step and encoding the successor all succeed, and the resulting
    index is again in [[0, nS)] and decodes to the successor. *)
Theorem X5_index_transition (env : RoomEnv) (i a : Z) :
  NoDup (vase_locations env) →
  0 ≤ i < nS (tables_of env) →
  0 ≤ a < nA →
  ∃ s s' j,
    get_state_from_num i (tables_of env) = (Ok s, tables_of env)
    ∧ get_next_state env s a = Some s'
    ∧ get_num_from_state s' (tables_of env) = (Ok j, tables_of env)
    ∧ 0 ≤ j < nS (tables_of env)
    ∧ get_state_from_num j (tables_of env) = (Ok s', tables_of env).
Proof.
  intros Hnd Hi Ha.
  destruct (index_state_valid env Hnd i Hi) as (s & Hs & Hv).
  destruct (get_next_state_total env s a Ha) as [s' Hstep].
  pose proof (get_next_state_valid env Hnd s s' a Hv Hstep) as Hv'.
  destruct (valid_state_indexed env Hnd s' Hv') as (_ & j & Hj & Hback & Hrange).
  by exists s, s', j.
Qed.

Lemma X5_index_transition_witness :
  let env := mkRoomEnv 2 2 [(1, 1)] ∅ [] in
  ∃ s s' j,
    get_state_from_num 1 (tables_of env) = (Ok s, tables_of env)
    ∧ get_next_state env s 1 = Some s'
    ∧ get_num_from_state s' (tables_of env) = (Ok j, tables_of env)
    ∧ 0 ≤ j < nS (tables_of env)
    ∧ get_state_from_num j (tables_of env) = (Ok s', tables_of env).
Proof.
  intros env. apply (X5_index_transition env 1 1).
  - apply NoDup_singleton.
  - assert (nS (tables_of env) = 7) as -> by reflexivity. lia.
  - unfold nA. lia.
Defined.

(** * Equal states are interchangeable *)

Lemma RoomState_eq_refl (s : RoomState) :
  dict_wf (vase_states s) → RoomState_eq s s = true.
Proof. intros Hwf. by apply RoomState_eq_iff. Qed.

Lemma RoomState_eq_sym (s1 s2 : RoomState) :
  dict_wf (vase_states s1) → dict_wf (vase_states s2) →
  RoomState_eq s1 s2 = RoomState_eq s2 s1.
Proof.
  intros Hwf1 Hwf2. apply eq_true_iff_eq.
  rewrite !RoomState_eq_iff by done. split; intros [-> ->]; done.
Qed.

Lemma RoomState_eq_trans (s1 s2 s3 : RoomState) :
  dict_wf (vase_states s1) → dict_wf (vase_states s2) →
  dict_wf (vase_states s3) →
  RoomState_eq s1 s2 = true → RoomState_eq s2 s3 = true →
  RoomState_eq s1 s3 = true.
Proof.
  intros Hwf1 Hwf2 Hwf3. rewrite !RoomState_eq_iff by done.
  intros [-> ->] [-> ->]. done.
Qed.

(** Looking up either of two equal states in a table of well-formed keys
    gives the same result. *)
Lemma dict_get_RoomState_eq {V} (d : list (RoomState * V)) (s1 s2 : RoomState) :
  Forall (λ k, dict_wf (vase_states k)) d.*1 →
  dict_wf (vase_states s1) → dict_wf (vase_states s2) →
  RoomState_eq s1 s2 = true →
  PyDict.get RoomState_eq d s1 = PyDict.get RoomState_eq d s2.
Proof.
  intros Hd Hwf1 Hwf2 Heq. induction d as [|[k v] d IH]; [done|].
  csimpl in Hd. apply Forall_cons in Hd as [Hk Hd]. simpl.
  assert (RoomState_eq k s1 = RoomState_eq k s2) as ->; [|by rewrite IH].
  apply eq_true_iff_eq. split; intros H.
  - by apply (RoomState_eq_trans k s1 s2).
  - apply (RoomState_eq_trans k s2 s1); [done..|].
    by rewrite RoomState_eq_sym.
Qed.

(** X6 — [__eq__] is an equivalence on states.  On states whose vase
    dicts have no repeated key, [RoomState.__eq__] is reflexive, symmetric
    and transitive, as a dict key comparison has to be. *)
Theorem X6_eq_equivalence (s1 s2 s3 : RoomState) :
  dict_wf (vase_states s1) → dict_wf (vase_states s2) →
  dict_wf (vase_states s3) →
  RoomState_eq s1 s1 = true
  ∧ RoomState_eq s1 s2 = RoomState_eq s2 s1
  ∧ (RoomState_eq s1 s2 = true → RoomState_eq s2 s3 = true →
     RoomState_eq s1 s3 = true).
Proof.
  intros Hwf1 Hwf2 Hwf3. split_and!.
  - by apply RoomState_eq_refl.
  - by apply RoomState_eq_sym.
  - by apply RoomState_eq_trans.
Qed.

Lemma X6_eq_equivalence_witness :
  let s1 := mkRoomState (0, 0) [((1, 1), true); ((0, 1), false)] in
  let s2 := mkRoomState (0, 0) [((0, 1), false); ((1, 1), true)] in
  let s3 := mkRoomState (0, 0) [((1, 1), true); ((0, 1), true)] in
  RoomState_eq s1 s2 = true ∧ RoomState_eq s2 s3 = false
  ∧ RoomState_eq s1 s2 = RoomState_eq s2 s1.
Proof.
  intros s1 s2 s3. split; [reflexivity|]. split; [reflexivity|].
  apply (X6_eq_equivalence s1 s2 s3);
    apply (bool_decide_unpack _); reflexivity.
Defined.

(** X7 — The index of a state does not depend on the insertion order of
    its vase dict.  Two states that are equal by [__eq__] get the same
    answer from [get_num_from_state]: the same index, or [KeyError] for
    both. *)
Theorem X7_lookup_respects_eq (env : RoomEnv) (s1 s2 : RoomState) :
  NoDup (vase_locations env) →
  dict_wf (vase_states s1) → dict_wf (vase_states s2) →
  RoomState_eq s1 s2 = true →
  get_num_from_state s1 (tables_of env) = get_num_from_state s2 (tables_of env).
Proof.
  intros Hnd Hwf1 Hwf2 Heq. unfold get_num_from_state.
  rewrite (dict_get_RoomState_eq _ s1 s2); [done| |done..].
  rewrite tables_state_num, numbered_fst by done.
  eapply Forall_impl; [by apply candidates_over|].
  intros k Hk. by apply (state_over_wf env).
Qed.

Lemma X7_lookup_respects_eq_witness :
  let env := mkRoomEnv 2 2 [(1, 1); (0, 1)] ∅ [] in
  let s1 := mkRoomState (0, 0) [((1, 1), true); ((0, 1), false)] in
  let s2 := mkRoomState (0, 0) [((0, 1), false); ((1, 1), true)] in
  s1 ∈ enumerated env ∧ (s2 ∉ enumerated env)
  ∧ get_num_from_state s2 (tables_of env) = (Ok 2, tables_of env).
Proof.
  intros env s1 s2.
  split; [apply (bool_decide_unpack _); vm_compute; reflexivity|].
  split; [apply (bool_decide_unpack _); vm_compute; reflexivity|].
  rewrite <-(X7_lookup_respects_eq env s1 s2).
  - reflexivity.
  - apply (bool_decide_unpack _). reflexivity.
  - apply (bool_decide_unpack _). reflexivity.
  - apply (bool_decide_unpack _). reflexivity.
  - reflexivity.
Defined.

(** X8 — Equal states have equal features.  If two states with
    well-formed vase dicts are equal by [__eq__], [s_to_f] returns the same
    vector for both, whatever the insertion order of their dicts. *)
Theorem X8_features_respect_eq (env : RoomEnv) (s1 s2 : RoomState) :
  dict_wf (vase_states s1) → dict_wf (vase_states s2) →
  RoomState_eq s1 s2 = true →
  s_to_f env s1 = s_to_f env s2.
Proof.
  intros Hwf1 Hwf2 [Hpos Hp]%RoomState_eq_iff; [|done..].
  unfold s_to_f, PyDict.values. rewrite Hpos. cbv zeta. f_equal.
  do 2 f_equal. apply Permutation_length. by rewrite Hp.
Qed.

Lemma X8_features_respect_eq_witness :
  let env := mkRoomEnv 2 2 [(1, 1); (0, 1)] {[ (0, 0) ]} [(1, 0); (0, 0)] in
  let s1 := mkRoomState (0, 0) [((1, 1), true); ((0, 1), false)] in
  let s2 := mkRoomState (0, 0) [((0, 1), false); ((1, 1), true)] in
  s1 ≠ s2 ∧ s_to_f env s1 = s_to_f env s2.
Proof.
  intros env s1 s2. split; [discriminate|].
  apply (X8_features_respect_eq env s1 s2).
  - apply (bool_decide_unpack _). reflexivity.
  - apply (bool_decide_unpack _). reflexivity.
  - reflexivity.
Defined.

(** * Feature indicators *)

Lemma indicator_sum (p : Pos) (l : list Pos) :
  foldr Z.add 0 ((λ fpos, int_of_bool (pos_eqb p fpos)) <$> l)
  = Z.of_nat (length (filter (λ fpos, fpos = p) l)).
Proof.
  induction l as [|q l IH]; [done|]. csimpl. rewrite IH, filter_cons.
  destruct (decide (q = p)) as [->|Hne].
  - rewrite pos_eqb_refl. simpl. lia.
  - assert (pos_eqb p q = false) as -> by (apply pos_eqb_neq; congruence).
    simpl. lia.
Qed.

Lemma filter_eq_NoDup (p : Pos) (l : list Pos) :
  NoDup l →
  length (filter (λ fpos, fpos = p) l) = if decide (p ∈ l) then 1%nat else 0%nat.
Proof.
  induction 1 as [|q l Hq Hnd IH]; [done|]. rewrite filter_cons.
  destruct (decide (q = p)) as [->|Hne].
  - rewrite decide_True by left. simpl. rewrite IH.
    by rewrite decide_False.
  - rewrite IH. destruct (decide (p ∈ l)) as [Hin|Hnin].
    + rewrite decide_True; [done|by right].
    + rewrite decide_False; [done|].
      intros [->|?]%elem_of_cons; done.
Qed.

(** X9 — The per-location indicators count the feature locations under the
    agent.  The components of [s_to_f] after the first two sum to the
    number of entries of [feature_locations] equal to the agent position;
    when the feature locations are pairwise distinct at most one indicator
    is set, and one is set exactly when the agent is on a feature
    location. *)
Theorem X9_feature_indicators (env : RoomEnv) (s : RoomState) :
  foldr Z.add 0 (drop 2 (s_to_f env s))
  = Z.of_nat (length (filter (λ fpos, fpos = agent_pos s)
                        (feature_locations env)))
  ∧ (NoDup (feature_locations env) →
     foldr Z.add 0 (drop 2 (s_to_f env s))
     = if decide (agent_pos s ∈ feature_locations env) then 1 else 0).
Proof.
  assert (drop 2 (s_to_f env s)
          = (λ fpos, int_of_bool (pos_eqb (agent_pos s) fpos))
              <$> feature_locations env) as -> by done.
  rewrite indicator_sum. split; [done|].
  intros Hnd. rewrite filter_eq_NoDup by done.
  by destruct (decide (agent_pos s ∈ feature_locations env)).
Qed.

Lemma X9_feature_indicators_witness :
  let env := mkRoomEnv 2 2 [] ∅ [(1, 0); (0, 0); (1, 1)] in
  let s := mkRoomState (0, 0) [] in
  s_to_f env s = [0; 0; 0; 1; 0]
  ∧ foldr Z.add 0 (drop 2 (s_to_f env s))
    = if decide (agent_pos s ∈ feature_locations env) then 1 else 0.
Proof.
  intros env s. split; [reflexivity|].
  apply (X9_feature_indicators env s).
  apply (bool_decide_unpack _). reflexivity.
Defined.

(** * The size of the state space *)

Lemma length_bind_sum {A B} (f : A → list B) (l : list A) :
  length (l ≫= f) = sum_list_with (λ x, length (f x)) l.
Proof.
  induction l as [|x l IH]; [done|]. csimpl. by rewrite length_app, IH.
Qed.

Lemma sum_list_with_ext {A} (f g : A → nat) (l : list A) :
  (∀ x, f x = g x) → sum_list_with f l = sum_list_with g l.
Proof.
  intros Hfg. induction l as [|x l IH]; [done|]. simpl. by rewrite Hfg, IH.
Qed.

Lemma sum_list_with_const {A} (l : list A) (c : nat) :
  sum_list_with (λ _, c) l = (length l * c)%nat.
Proof. induction l as [|x l IH]; [done|]. simpl. rewrite IH. lia. Qed.

Lemma length_py_range (n : Z) : length (py_range n) = Z.to_nat n.
Proof. apply length_seqZ. Qed.

Lemma length_cells (env : RoomEnv) :
  length (cells env) = (Z.to_nat (height env) * Z.to_nat (width env))%nat.
Proof.
  unfold cells. rewrite length_bind_sum.
  rewrite (sum_list_with_ext _ (λ _, Z.to_nat (width env))).
  - by rewrite sum_list_with_const, length_py_range.
  - intros y. rewrite length_bind_sum. simpl.
    rewrite (sum_list_with_const _ 1), length_py_range. lia.
Qed.

Lemma length_product_bools (n : nat) : length (product_bools n) = (2 ^ n)%nat.
Proof.
  induction n as [|n IH]; [done|]. cbn [product_bools]. csimpl.
  rewrite !length_app, !length_fmap, IH. simpl. lia.
Qed.

Lemma sum_list_with_fmap {A B} (f : B → nat) (g : A → B) (l : list A) :
  sum_list_with f (g <$> l) = sum_list_with (λ x, f (g x)) l.
Proof. induction l as [|x l IH]; [done|]. csimpl. by rewrite IH. Qed.

(** The layouts hold [n * 2^(n-1)] intact flags altogether. *)
Lemma product_bools_intact_total (n : nat) :
  (2 * sum_list_with (λ bs, length (filter (λ b, b = true) bs)) (product_bools n)
   = n * 2 ^ n)%nat.
Proof.
  induction n as [|n IH]; [done|]. cbn [product_bools]. csimpl.
  rewrite app_nil_r, sum_list_with_app, !sum_list_with_fmap.
  rewrite (sum_list_with_ext
             (λ x, length (filter (λ b, b = true) (true :: x)))
             (λ x, S (length (filter (λ b, b = true) x))))
    by (intros x; by rewrite filter_cons_True).
  rewrite (sum_list_with_ext
             (λ x, length (filter (λ b, b = true) (false :: x)))
             (λ x, length (filter (λ b, b = true) x)))
    by (intros x; by rewrite filter_cons_False).
  assert (∀ l : list (list bool),
    sum_list_with (λ x, S (length (filter (λ b, b = true) x))) l
    = (length l + sum_list_with (λ x, length (filter (λ b, b = true) x)) l)%nat)
    as ->.
  { intros l. induction l as [|x l IHl]; [done|]. simpl. rewrite IHl. lia. }
  rewrite length_product_bools. simpl. lia.
Qed.

Lemma count_true_zip {A} (l : list A) (bs : list bool) :
  length l = length bs →
  length (filter (λ kv, kv.2 = true) (zip l bs))
  = length (filter (λ b, b = true) bs).
Proof.
  revert bs. induction l as [|x l IH]; intros [|b bs]; try done.
  intros [= Hlen]. simpl. rewrite !filter_cons. simpl.
  destruct (decide (b = true)); simpl; by rewrite IH.
Qed.

Lemma on_intact_vase_true (d : list (Pos * bool)) (p : Pos) :
  on_intact_vase p d = true ↔ PyDict.get pos_eqb d p = Some true.
Proof.
  unfold on_intact_vase, PyDict.contains.
  destruct (PyDict.get pos_eqb d p) as [[]|]; simpl; split; done.
Qed.

Section state_count.
Context (env : RoomEnv).
Hypothesis vase_locations_NoDup : NoDup (vase_locations env).
Hypothesis vase_locations_in_bounds :
  Forall (λ p, in_bounds env p = true) (vase_locations env).

(** In one layout, the cells excluded are the intact vases. *)
Lemma intact_cells_Permutation (bools : list bool) :
  length bools = num_vases env →
  filter (λ pos, ¬ on_intact_vase pos (layout_of env bools) = false) (cells env)
  ≡ₚ (filter (λ kv, kv.2 = true) (layout_of env bools)).*1.
Proof.
  intros Hlen.
  assert (dict_wf (layout_of env bools)) as Hwf.
  { unfold dict_wf. pose proof (layout_of_keys env vase_locations_NoDup bools Hlen) as Hk.
    unfold PyDict.keys in Hk. by rewrite Hk. }
  apply NoDup_Permutation.
  - apply NoDup_filter, NoDup_cells.
  - apply NoDup_fmap_fst.
    + intros p b1 b2 [Hb1 _]%list_elem_of_filter [Hb2 _]%list_elem_of_filter.
      simpl in *. congruence.
    + by apply NoDup_filter, dict_wf_NoDup.
  - intros p. rewrite list_elem_of_filter, elem_of_cells, list_elem_of_fmap.
    split.
    + intros [Hint Hin]. exists (p, true). split; [done|].
      apply list_elem_of_filter. split; [done|].
      apply pos_get_Some_elem_of, on_intact_vase_true.
      by destruct (on_intact_vase p (layout_of env bools)).
    + intros ([q b] & -> & [Hb Hin]%list_elem_of_filter). simpl in *. subst b.
      split.
      * apply pos_elem_of_get in Hin; [|done].
        apply on_intact_vase_true in Hin. by rewrite Hin.
      * rewrite Forall_forall in vase_locations_in_bounds.
        apply vase_locations_in_bounds.
        rewrite <-(layout_of_keys env vase_locations_NoDup bools Hlen).
        unfold PyDict.keys. apply list_elem_of_fmap. by exists (q, true).
Qed.

Lemma layout_cells_count (bools : list bool) :
  length bools = num_vases env →
  (length (filter (λ pos, on_intact_vase pos (layout_of env bools) = false)
             (cells env))
   + length (filter (λ b, b = true) bools)
   = length (cells env))%nat.
Proof.
  intros Hlen.
  pose proof (Permutation_length
                (filter_app_complement
                   (λ pos, on_intact_vase pos (layout_of env bools) = false)
                   (cells env))) as Hsplit.
  rewrite length_app in Hsplit. rewrite <-Hsplit. f_equal. symmetry.
  rewrite intact_cells_Permutation by done.
  rewrite length_fmap, layout_of_zip by done.
  apply count_true_zip. unfold num_vases in Hlen. lia.
Qed.

Lemma candidates_count :
  (length (candidates env)
   + sum_list_with (λ bs, length (filter (λ b, b = true) bs))
       (product_bools (num_vases env))
   = length (cells env) * 2 ^ num_vases env)%nat.
Proof.
  unfold candidates. rewrite length_bind_sum, <-length_product_bools.
  assert (Forall (λ bs, length bs = num_vases env)
            (product_bools (num_vases env))) as Hall.
  { apply Forall_forall. intros bs. by rewrite product_bools_length. }
  induction Hall as [|bs l Hbs Hl IH]; [simpl; lia|].
  simpl. rewrite length_fmap.
  pose proof (layout_cells_count bs Hbs). lia.
Qed.
End state_count.

(** X10 — The number of states in closed form.  For pairwise distinct
    vase locations inside a grid of width [w] and height [h], with [n]
    vases, [enumerate_states] sets [nS] to [2^n * w * h - n * 2^(n-1)]:
    every layout over every cell, less the cells under an intact vase.
    Without vases [nS] is [w * h]. *)
Theorem X10_state_count (env : RoomEnv) :
  NoDup (vase_locations env) →
  Forall (λ p, in_bounds env p = true) (vase_locations env) →
  0 ≤ width env → 0 ≤ height env →
  2 * nS (tables_of env)
  = 2 ^ Z.of_nat (num_vases env)
    * (2 * (width env * height env) - Z.of_nat (num_vases env))
  ∧ (num_vases env = 0%nat → nS (tables_of env) = width env * height env).
Proof.
  intros Hnd Hin Hw Hh.
  pose proof (candidates_count env Hnd Hin) as Hcount.
  pose proof (product_bools_intact_total (num_vases env)) as Htot.
  rewrite length_cells in Hcount.
  rewrite tables_nS by done.
  assert (2 * Z.of_nat (length (candidates env))
          = 2 ^ Z.of_nat (num_vases env)
            * (2 * (width env * height env) - Z.of_nat (num_vases env)))
    as Hmain.
  { apply (f_equal Z.of_nat) in Hcount, Htot.
    rewrite ?Nat2Z.inj_add, ?Nat2Z.inj_mul, ?Nat2Z.inj_pow in Hcount, Htot.
    rewrite !Z2Nat.id in Hcount by done.
    change (Z.of_nat 2) with 2 in *. nia. }
  split; [done|]. intros Hn. rewrite Hn in Hmain.
  change (2 ^ Z.of_nat 0) with 1 in Hmain. lia.
Qed.

Lemma X10_state_count_witness :
  let env := mkRoomEnv 2 3 [(1, 1); (0, 0)] ∅ [] in
  nS (tables_of env) = 20
  ∧ 2 * nS (tables_of env)
    = 2 ^ Z.of_nat (num_vases env)
      * (2 * (width env * height env) - Z.of_nat (num_vases env)).
Proof.
  intros env. split; [reflexivity|].
  apply (X10_state_count env).
  - apply (bool_decide_unpack _). reflexivity.
  - apply (bool_decide_unpack _). reflexivity.
  - simpl. lia.
  - simpl. lia.
Defined.

(** * Degenerate grids *)

Lemma py_range_nonpos (n : Z) : n ≤ 0 → py_range n = [].
Proof.
  intros Hn. unfold py_range, seqZ.
  by replace (Z.to_nat n) with 0%nat by lia.
Qed.

Lemma cells_empty (env : RoomEnv) :
  width env ≤ 0 ∨ height env ≤ 0 → cells env = [].
Proof.
  unfold cells. intros [Hw|Hh].
  - rewrite (py_range_nonpos (width env)) by done.
    induction (py_range (height env)) as [|y l IH]; [done|]. by csimpl.
  - by rewrite (py_range_nonpos (height env)).
Qed.

(** X11 — A grid without cells has no states.  When the width or the
    height is zero or negative the loops of [enumerate_states] never run
    their body, whatever the vase locations: both tables are empty, [nS] is
    0, and every lookup raises [KeyError]. *)
Theorem X11_empty_grid (env : RoomEnv) (state : RoomState) (num : Z) :
  width env ≤ 0 ∨ height env ≤ 0 →
  tables_of env = mkTables [] [] 0
  ∧ enumerated env = []
  ∧ get_num_from_state state (tables_of env) = (KeyError, tables_of env)
  ∧ get_state_from_num num (tables_of env) = (KeyError, tables_of env).
Proof.
  intros Hempty.
  assert (enumerate_state_num env = []) as Hnum.
  { unfold enumerate_state_num.
    induction (product_bools (num_vases env)) as [|bs l IH]; [done|].
    simpl. rewrite enumerate_layout_cells, cells_empty by done. apply IH. }
  assert (tables_of env = mkTables [] [] 0) as Htab.
  { unfold tables_of, enumerate_states. simpl. by rewrite Hnum. }
  split; [done|]. split; [unfold enumerated; by rewrite Hnum|].
  by rewrite Htab.
Qed.

Lemma X11_empty_grid_witness :
  let env := mkRoomEnv 0 3 [(1, 1); (1, 1)] ∅ [] in
  tables_of env = mkTables [] [] 0
  ∧ enumerated env = []
  ∧ get_num_from_state (mkRoomState (0, 0) []) (tables_of env)
    = (KeyError, tables_of env)
  ∧ get_state_from_num 0 (tables_of env) = (KeyError, tables_of env).
Proof.
  intros env. apply (X11_empty_grid env). right. simpl. lia.
Defined.

(** * Construction *)

Lemma get_num_from_state_absent (env : RoomEnv) (s : RoomState) :
  NoDup (vase_locations env) → state_over env s → s ∉ enumerated env →
  get_num_from_state s (tables_of env) = (KeyError, tables_of env).
Proof.
  intros Hnd Hover Hnin. unfold get_num_from_state, subscript.
  assert ((state_num (tables_of env)).*1 = enumerated env) as Hkeys.
  { rewrite tables_state_num, numbered_fst by done.
    by rewrite enumerated_candidates. }
  assert (Forall (state_over env) (state_num (tables_of env)).*1) as Hall.
  { rewrite Hkeys, enumerated_candidates by done. by apply candidates_over. }
  rewrite (proj2 (dict_get_None_not_elem RoomState_eq (state_over env)
                    (RoomState_eq_over env Hnd) _ s Hall Hover)); [done|].
  by rewrite Hkeys.
Qed.

(** X12 — What [__init__] establishes.  For a [spec] whose initial state
    has a well-formed vase dict, the environment built with
    [compute_transitions] has pairwise distinct vase locations, one per
    entry of that dict; [num_features] is [2 + |feature_locations|]; the
    carpet set has the members of [spec.carpet_locations]; and the initial
    state is in the index table exactly when its agent is inside the grid
    and not on an intact vase: otherwise [get_num_from_state] raises
    [KeyError] for it. *)
Theorem X12_init (spec : Spec) :
  dict_wf (vase_states (spec_init_state spec)) →
  let self := RoomEnv_init spec true in
  let env := self_env self in
  let init := self_init_state self in
  NoDup (vase_locations env)
  ∧ num_vases env = length (vase_states init)
  ∧ self_num_features self = (2 + length (spec_feature_locations spec))%nat
  ∧ (∀ p, p ∈ carpet_locations env ↔ p ∈ spec_carpet_locations spec)
  ∧ self_tables self = Some (tables_of env)
  ∧ (in_bounds env (agent_pos init) = true
     ∧ on_intact_vase (agent_pos init) (vase_states init) = false →
     ∃ i, get_num_from_state init (tables_of env) = (Ok i, tables_of env)
          ∧ 0 ≤ i < nS (tables_of env))
  ∧ (in_bounds env (agent_pos init) = false
     ∨ on_intact_vase (agent_pos init) (vase_states init) = true →
     get_num_from_state init (tables_of env) = (KeyError, tables_of env)).
Proof.
  intros Hwf self env init.
  assert (NoDup (vase_locations env)) as Hnd by done.
  assert (state_over env init) as Hover by done.
  split_and!.
  - done.
  - unfold num_vases, env; simpl. unfold PyDict.keys. by rewrite length_fmap.
  - unfold self, RoomEnv_init, s_to_f; simpl. by rewrite length_fmap.
  - intros p. unfold env; simpl. by rewrite elem_of_list_to_set.
  - done.
  - intros [Hin Hv].
    assert (valid_state env init) as Hvalid by (by apply valid_state_iff).
    destruct (valid_state_indexed env Hnd init Hvalid) as (_ & i & Hi & _ & ?).
    by exists i.
  - intros Hbad. apply get_num_from_state_absent; [done..|].
    rewrite enumerated_candidates by done. intros Hin%elem_of_candidates.
    apply valid_state_iff in Hin as (_ & Hin & Hv); [|done].
    destruct Hbad; congruence.
Qed.

Lemma X12_init_witness :
  let spec := mkSpec 2 2 (mkRoomState (1, 1) [((1, 1), true); ((0, 1), true)])
                [(0, 0); (0, 0)] [(1, 0)] in
  let self := RoomEnv_init spec true in
  NoDup (vase_locations (self_env self))
  ∧ get_num_from_state (self_init_state self) (tables_of (self_env self))
    = (KeyError, tables_of (self_env self)).
Proof.
  intros spec self.
  assert (dict_wf (vase_states (spec_init_state spec))) as Hwf
    by (apply (bool_decide_unpack _); reflexivity).
  destruct (X12_init spec Hwf) as (Hnd & _ & _ & _ & _ & _ & Hbad).
  split; [exact Hnd|]. apply Hbad. right. reflexivity.
Defined.

(** * The rendering representation *)

Lemma py_index_in (len : nat) (i : Z) :
  0 ≤ i < Z.of_nat len → py_index len i = Some (Z.to_nat i).
Proof.
  intros Hi. unfold py_index.
  assert ((0 <=? i) = true) as -> by (apply Z.leb_le; lia).
  assert ((i <? Z.of_nat len) = true) as -> by (apply Z.ltb_lt; lia).
  done.
Qed.

Lemma py_index_wrap (len : nat) (i : Z) :
  - Z.of_nat len ≤ i < 0 →
  py_index len i = Some (Z.to_nat (Z.of_nat len + i)).
Proof.
  intros Hi. unfold py_index.
  assert ((0 <=? i) = false) as -> by (apply Z.leb_gt; lia).
  assert ((- Z.of_nat len <=? i) = true) as -> by (apply Z.leb_le; lia).
  assert ((i <? 0) = true) as -> by (apply Z.ltb_lt; lia).
  done.
Qed.

Lemma py_index_out (len : nat) (i : Z) :
  Z.of_nat len ≤ i ∨ i < - Z.of_nat len → py_index len i = None.
Proof.
  intros Hi. unfold py_index.
  destruct (Z.leb_spec 0 i), (Z.ltb_spec i (Z.of_nat len)),
    (Z.leb_spec (- Z.of_nat len) i), (Z.ltb_spec i 0); simpl; try done; lia.
Qed.

Lemma in_bounds_iff (env : RoomEnv) (p : Pos) :
  in_bounds env p = true ↔ (0 ≤ p.1 < width env) ∧ (0 ≤ p.2 < height env).
Proof.
  unfold in_bounds. rewrite !andb_true_iff, !Z.leb_le, !Z.ltb_lt. lia.
Qed.

Lemma grid_append_shape (env : RoomEnv) (g g' : list (list (list string)))
    (p : Pos) (item : string) :
  grid_shape env g → grid_append g p item = Some g' → grid_shape env g'.
Proof.
  intros [Hlen Hrows]. unfold grid_append.
  destruct (py_index (length g) p.2) as [ny|]; [|done]. simpl.
  destruct (g !! ny) as [row|] eqn:Hrow; [|done]. simpl.
  destruct (py_index (length row) p.1) as [nx|]; [|done]. simpl.
  destruct (row !! nx) as [cell|]; [|done]. simpl. intros [= <-].
  split; [by rewrite length_insert|].
  apply Forall_insert; [done|]. rewrite length_insert.
  rewrite Forall_forall in Hrows. apply Hrows.
  by apply list_elem_of_lookup_2 in Hrow.
Qed.

Lemma grid_cell_in_bounds (env : RoomEnv) (g : list (list (list string)))
    (q : Pos) :
  grid_shape env g → in_bounds env q = true →
  ∃ row, g !! Z.to_nat q.2 = Some row
         ∧ length row = Z.to_nat (width env)
         ∧ grid_cell g q = row !! Z.to_nat q.1
         ∧ is_Some (row !! Z.to_nat q.1).
Proof.
  intros [Hlen Hrows] [Hx Hy]%in_bounds_iff.
  destruct (lookup_lt_is_Some_2 g (Z.to_nat q.2)) as [row Hrow]; [lia|].
  assert (length row = Z.to_nat (width env)) as Hw.
  { rewrite Forall_forall in Hrows. apply Hrows.
    by apply list_elem_of_lookup_2 in Hrow. }
  exists row. split_and!; [done..| |].
  - unfold grid_cell. rewrite py_index_in by lia. simpl. rewrite Hrow. simpl.
    by rewrite py_index_in by lia.
  - apply lookup_lt_is_Some_2. lia.
Qed.

(** One [append] inside the grid changes the cell it names and no other. *)
Lemma grid_append_in_bounds (env : RoomEnv) (g : list (list (list string)))
    (p : Pos) (item : string) :
  grid_shape env g → in_bounds env p = true →
  ∃ g', grid_append g p item = Some g'
        ∧ grid_shape env g'
        ∧ ∀ q, in_bounds env q = true →
            grid_cell g' q
            = if decide (q = p) then (λ c, c ++ [item]) <$> grid_cell g q
              else grid_cell g q.
Proof.
  intros Hshape Hp.
  destruct (grid_cell_in_bounds env g p Hshape Hp)
    as (row & Hrow & Hw & Hcell & [cell Hc]).
  pose proof Hshape as [Hlen Hrows]. pose proof Hp as [Hx Hy]%in_bounds_iff.
  assert (grid_append g p item
          = Some (<[Z.to_nat p.2 := <[Z.to_nat p.1 := cell ++ [item]]> row]> g))
    as Happ.
  { unfold grid_append. rewrite py_index_in by lia. simpl. rewrite Hrow. simpl.
    rewrite py_index_in by lia. simpl. by rewrite Hc. }
  eexists. split; [exact Happ|].
  pose proof (grid_append_shape env g _ p item Hshape Happ) as Hshape'.
  split; [done|]. intros q Hq.
  destruct (grid_cell_in_bounds env _ q Hshape' Hq)
    as (row' & Hrow' & _ & -> & _).
  destruct (grid_cell_in_bounds env g q Hshape Hq)
    as (row0 & Hrow0 & _ & -> & _).
  pose proof Hq as [Hqx Hqy]%in_bounds_iff.
  destruct (decide (Z.to_nat p.2 = Z.to_nat q.2)) as [Hy2|Hy2].
  - rewrite Hy2 in Hrow'. rewrite list_lookup_insert_eq in Hrow' by lia.
    injection Hrow' as <-. rewrite <-Hy2, Hrow in Hrow0. injection Hrow0 as <-.
    destruct (decide (Z.to_nat p.1 = Z.to_nat q.1)) as [Hx2|Hx2].
    + rewrite decide_True by (destruct p, q; simpl in *; f_equal; lia).
      rewrite <-Hx2, list_lookup_insert_eq by lia. by rewrite Hc.
    + rewrite decide_False by (intros ->; done).
      by rewrite list_lookup_insert_ne.
  - rewrite list_lookup_insert_ne in Hrow' by done.
    rewrite Hrow0 in Hrow'. injection Hrow' as <-.
    by rewrite decide_False by (intros ->; done).
Qed.

(** A loop of appends inside the grid adds to each cell, in order, the
    items addressed to it. *)
Lemma grid_appends_in_bounds (env : RoomEnv) (ops : list (Pos * string))
    (g : list (list (list string))) :
  grid_shape env g →
  Forall (λ op, in_bounds env op.1 = true) ops →
  ∃ g', grid_appends g ops = Some g'
        ∧ grid_shape env g'
        ∧ ∀ q, in_bounds env q = true →
            grid_cell g' q
            = (λ c, c ++ (filter (λ op, op.1 = q) ops).*2) <$> grid_cell g q.
Proof.
  intros Hshape Hops. revert g Hshape.
  induction Hops as [|[p item] ops Hp Hops IH]; intros g Hshape.
  - exists g. split_and!; [done..|]. intros q Hq.
    destruct (grid_cell g q); simpl; [|done]. by rewrite app_nil_r.
  - destruct (grid_append_in_bounds env g p item Hshape Hp)
      as (g1 & Happ & Hshape1 & Hcells1).
    destruct (IH g1 Hshape1) as (g' & Happs & Hshape' & Hcells').
    exists g'. split_and!; [|done|].
    + unfold grid_appends in *. simpl. by rewrite Happ.
    + intros q Hq. rewrite (Hcells' q Hq), (Hcells1 q Hq), filter_cons. simpl.
      destruct (decide (p = q)) as [->|Hne].
      * rewrite decide_True by done.
        destruct (grid_cell g q); simpl; [|done].
        by rewrite <-(assoc_L (++)).
      * by rewrite decide_False by (intros ->; done).
Qed.

Lemma items_const (q : Pos) (item : string) (l : list Pos) :
  (filter (λ op : Pos * string, op.1 = q) ((λ pos, (pos, item)) <$> l)).*2
  = replicate (length (filter (λ pos, pos = q) l)) item.
Proof.
  induction l as [|p l IH]; [done|]. csimpl. rewrite !filter_cons. simpl.
  destruct (decide (p = q)); csimpl; by rewrite IH.
Qed.

Lemma items_vases (q : Pos) (f : bool → string) (d : list (Pos * bool)) :
  dict_wf d →
  (filter (λ op : Pos * string, op.1 = q) ((λ kv, (kv.1, f kv.2)) <$> d)).*2
  = match PyDict.get pos_eqb d q with Some b => [f b] | None => [] end.
Proof.
  unfold dict_wf. induction d as [|[k b] d IH]; [done|]. csimpl.
  intros [Hk Hnd]%NoDup_cons. rewrite filter_cons. simpl.
  destruct (decide (k = q)) as [->|Hne].
  - rewrite pos_eqb_refl. csimpl. f_equal. rewrite IH by done.
    by rewrite (proj2 (pos_get_None d q) Hk).
  - apply pos_eqb_neq in Hne as ->. by apply IH.
Qed.

Lemma grid_init_shape (env : RoomEnv) :
  grid_shape env
    (replicate (Z.to_nat (height env)) (replicate (Z.to_nat (width env)) [])).
Proof.
  split; [by rewrite length_replicate|].
  apply Forall_replicate. by rewrite length_replicate.
Qed.

Lemma grid_init_cell (env : RoomEnv) (q : Pos) :
  in_bounds env q = true →
  grid_cell
    (replicate (Z.to_nat (height env)) (replicate (Z.to_nat (width env)) []))
    q = Some [].
Proof.
  intros Hq.
  destruct (grid_cell_in_bounds env _ q (grid_init_shape env) Hq)
    as (row & Hrow & _ & -> & _).
  apply lookup_replicate in Hrow as [-> _].
  apply lookup_replicate_2. apply in_bounds_iff in Hq. lia.
Qed.

Lemma grid_appends_shape (env : RoomEnv) (ops : list (Pos * string))
    (g g' : list (list (list string))) :
  grid_shape env g → grid_appends g ops = Some g' → grid_shape env g'.
Proof.
  unfold grid_appends. revert g.
  induction ops as [|[p item] ops IH]; intros g Hshape; simpl.
  - by intros [= <-].
  - destruct (grid_append g p item) as [g1|] eqn:Happ.
    + apply IH. by apply (grid_append_shape env g g1 p item).
    + clear. induction ops as [|op ops IH]; simpl; done.
Qed.

(** X13 — What a cell of the rendering holds.  When the carpets, the
    feature locations, the vases and the agent are all inside the grid and
    the vase dict is well formed, [get_state_rendering_representation]
    returns a grid of [height] rows of [width] cells in which the cell at
    [(x, y)] lists, in this order: ['rug'] if the cell is a carpet, one
    ['door'] per entry of [feature_locations] at the cell, ['vase'] or
    ['pieces'] if the cell holds an intact or a broken vase, and ['human']
    if the agent is there.  The order in which the carpet set is iterated
    does not matter. *)
Theorem X13_rendering_cells (env : RoomEnv) (carpets : list Pos)
    (state : RoomState) :
  carpets ≡ₚ elements (carpet_locations env) →
  Forall (λ p, in_bounds env p = true) carpets →
  Forall (λ p, in_bounds env p = true) (feature_locations env) →
  dict_wf (vase_states state) →
  Forall (λ p, in_bounds env p = true) (PyDict.keys (vase_states state)) →
  in_bounds env (agent_pos state) = true →
  ∃ grid,
    get_state_rendering_representation env carpets state = Some grid
    ∧ grid_shape env grid
    ∧ ∀ q, in_bounds env q = true →
        grid_cell grid q
        = Some ((if decide (q ∈ carpet_locations env) then ["rug"] else [])
                ++ replicate
                     (length (filter (λ p, p = q) (feature_locations env)))
                     "door"
                ++ match PyDict.get pos_eqb (vase_states state) q with
                   | Some true => ["vase"]
                   | Some false => ["pieces"]
                   | None => []
                   end
                ++ (if decide (q = agent_pos state) then ["human"] else [])).
Proof.
  intros Hperm Hcarpets Hfeatures Hwf Hvases Hagent.
  unfold get_state_rendering_representation.
  destruct (grid_appends_in_bounds env ((λ pos, (pos, "rug")) <$> carpets) _
              (grid_init_shape env)) as (g1 & -> & Hs1 & Hc1).
  { apply Forall_fmap. by eapply Forall_impl. }
  simpl.
  destruct (grid_appends_in_bounds env
              ((λ pos, (pos, "door")) <$> feature_locations env) g1 Hs1)
    as (g2 & -> & Hs2 & Hc2).
  { apply Forall_fmap. by eapply Forall_impl. }
  simpl.
  destruct (grid_appends_in_bounds env
              ((λ kv, (kv.1, if kv.2 : bool then "vase" else "pieces"))
                 <$> vase_states state) g2 Hs2)
    as (g3 & -> & Hs3 & Hc3).
  { apply Forall_fmap. unfold PyDict.keys in Hvases.
    apply Forall_fmap in Hvases. by eapply Forall_impl. }
  simpl.
  destruct (grid_append_in_bounds env g3 (agent_pos state) "human" Hs3 Hagent)
    as (g4 & -> & Hs4 & Hc4).
  exists g4. split; [done|]. split; [done|]. intros q Hq.
  rewrite (Hc4 q Hq), (Hc3 q Hq), (Hc2 q Hq), (Hc1 q Hq).
  rewrite (grid_init_cell env q Hq). simpl.
  pose proof (items_vases q (λ b : bool, if b then "vase" else "pieces") _ Hwf)
    as Hitems.
  simpl in Hitems. rewrite !items_const, Hitems.
  assert (NoDup carpets) as Hnd by (rewrite Hperm; apply NoDup_elements).
  rewrite (filter_eq_NoDup q carpets Hnd).
  assert (q ∈ carpets ↔ q ∈ carpet_locations env) as Hin
    by (by rewrite Hperm, elem_of_elements).
  destruct (decide (q = agent_pos state)); simpl;
    destruct (decide (q ∈ carpets)), (decide (q ∈ carpet_locations env));
    try tauto; simpl;
    destruct (PyDict.get pos_eqb (vase_states state) q) as [[]|]; simpl;
    by rewrite <-?(assoc_L (++)), ?app_nil_r.
Qed.

Lemma X13_rendering_cells_witness :
  let env := mkRoomEnv 2 2 [(1, 1)] {[ (0, 0) ]} [(0, 0); (1, 0)] in
  let state := mkRoomState (0, 0) [((1, 1), false)] in
  get_state_rendering_representation env [(0, 0)] state
  = Some [[["rug"; "door"; "human"]; ["door"]]; [[]; ["pieces"]]]
  ∧ ∃ grid,
      get_state_rendering_representation env [(0, 0)] state = Some grid
      ∧ grid_shape env grid.
Proof.
  intros env state. split; [reflexivity|].
  destruct (X13_rendering_cells env [(0, 0)] state) as (grid & Hg & Hs & _).
  - unfold env. simpl. rewrite elements_singleton. reflexivity.
  - apply (bool_decide_unpack _). reflexivity.
  - apply (bool_decide_unpack _). reflexivity.
  - apply (bool_decide_unpack _). reflexivity.
  - apply (bool_decide_unpack _). reflexivity.
  - reflexivity.
  - exists grid. split; [exact Hg|exact Hs].
Defined.

Lemma grid_append_out (env : RoomEnv) (g : list (list (list string)))
    (p : Pos) (item : string) :
  grid_shape env g →
  ¬ (- width env ≤ p.1 < width env ∧ - height env ≤ p.2 < height env) →
  grid_append g p item = None.
Proof.
  intros [Hlen Hrows] Hout. unfold grid_append.
  destruct (py_index (length g) p.2) as [ny|] eqn:Hy; [|done]. simpl.
  destruct (g !! ny) as [row|] eqn:Hrow; [|done]. simpl.
  assert (length row = Z.to_nat (width env)) as Hw.
  { rewrite Forall_forall in Hrows. apply Hrows.
    by apply list_elem_of_lookup_2 in Hrow. }
  assert (- height env ≤ p.2 < height env) as Hy'.
  { destruct (decide (- height env ≤ p.2 < height env)) as [|Hn]; [done|].
    rewrite py_index_out in Hy; [done|]. lia. }
  rewrite py_index_out; [done|]. lia.
Qed.

Lemma py_index_mod (len : nat) (i : Z) :
  - Z.of_nat len ≤ i < Z.of_nat len →
  py_index len i = py_index len (i `mod` Z.of_nat len).
Proof.
  intros Hi. destruct (decide (0 ≤ i)) as [Hpos|Hneg].
  - by rewrite Z.mod_small by lia.
  - rewrite py_index_wrap by lia.
    replace (i `mod` Z.of_nat len) with (Z.of_nat len + i).
    + by rewrite py_index_in by lia.
    + apply (Z.mod_unique i (Z.of_nat len) (-1)); lia.
Qed.

Lemma grid_append_wrap (env : RoomEnv) (g : list (list (list string)))
    (p : Pos) (item : string) :
  grid_shape env g →
  - width env ≤ p.1 < width env → - height env ≤ p.2 < height env →
  grid_append g p item
  = grid_append g (p.1 `mod` width env, p.2 `mod` height env) item.
Proof.
  intros [Hlen Hrows] Hx Hy. unfold grid_append. simpl.
  assert (Z.of_nat (length g) = height env) as Hh by lia.
  rewrite (py_index_mod (length g) p.2) by lia. rewrite Hh.
  destruct (py_index (length g) (p.2 `mod` height env)) as [ny|]; [|done].
  simpl. destruct (g !! ny) as [row|] eqn:Hrow; [|done]. simpl.
  assert (Z.of_nat (length row) = width env) as Hw.
  { rewrite Forall_forall in Hrows.
    rewrite (Hrows row) by (by apply list_elem_of_lookup_2 in Hrow). lia. }
  rewrite (py_index_mod (length row) p.1) by lia. by rewrite Hw.
Qed.

(** X14 — Rendering an agent out of index range fails.  If the agent's
    [x] is not in [[-width, width)] or its [y] is not in
    [[-height, height)], [get_state_rendering_representation] raises
    [IndexError], whatever the rest of the state. *)
Theorem X14_rendering_index_error (env : RoomEnv) (carpets : list Pos)
    (state : RoomState) :
  ¬ (- width env ≤ (agent_pos state).1 < width env
     ∧ - height env ≤ (agent_pos state).2 < height env) →
  get_state_rendering_representation env carpets state = None.
Proof.
  intros Hout. unfold get_state_rendering_representation.
  pose proof (grid_init_shape env) as Hs0.
  destruct (grid_appends _ ((λ pos, (pos, "rug")) <$> carpets))
    as [g1|] eqn:H1; [|done]. simpl.
  pose proof (grid_appends_shape env _ _ g1 Hs0 H1) as Hs1.
  destruct (grid_appends g1 _) as [g2|] eqn:H2; [|done]. simpl.
  pose proof (grid_appends_shape env _ _ g2 Hs1 H2) as Hs2.
  destruct (grid_appends g2 _) as [g3|] eqn:H3; [|done]. simpl.
  pose proof (grid_appends_shape env _ _ g3 Hs2 H3) as Hs3.
  by apply (grid_append_out env).
Qed.

Lemma X14_rendering_index_error_witness :
  let env := mkRoomEnv 2 2 [(1, 1)] ∅ [] in
  get_state_rendering_representation env []
    (mkRoomState (2, 0) [((1, 1), true)]) = None
  ∧ get_state_rendering_representation env []
      (mkRoomState (0, -3) [((1, 1), true)]) = None.
Proof.
  intros env. split.
  - apply (X14_rendering_index_error env). simpl. lia.
  - apply (X14_rendering_index_error env). simpl. lia.
Defined.

(** X15 — Negative agent coordinates wrap around in the rendering.  An
    agent whose [x] lies in [[-width, width)] and whose [y] lies in
    [[-height, height)] is rendered exactly as the agent at
    [(x mod width, y mod height)]: a coordinate below zero counts cells
    from the opposite edge, as Python list indices do, and no error is
    raised for it. *)
Theorem X15_rendering_wraps (env : RoomEnv) (carpets : list Pos)
    (p : Pos) (d : list (Pos * bool)) :
  - width env ≤ p.1 < width env →
  - height env ≤ p.2 < height env →
  get_state_rendering_representation env carpets (mkRoomState p d)
  = get_state_rendering_representation env carpets
      (mkRoomState (p.1 `mod` width env, p.2 `mod` height env) d).
Proof.
  intros Hx Hy. unfold get_state_rendering_representation. simpl.
  pose proof (grid_init_shape env) as Hs0.
  destruct (grid_appends _ ((λ pos, (pos, "rug")) <$> carpets))
    as [g1|] eqn:H1; [|done]. simpl.
  pose proof (grid_appends_shape env _ _ g1 Hs0 H1) as Hs1.
  destruct (grid_appends g1 _) as [g2|] eqn:H2; [|done]. simpl.
  pose proof (grid_appends_shape env _ _ g2 Hs1 H2) as Hs2.
  destruct (grid_appends g2 _) as [g3|] eqn:H3; [|done]. simpl.
  pose proof (grid_appends_shape env _ _ g3 Hs2 H3) as Hs3.
  by apply (grid_append_wrap env).
Qed.

Lemma X15_rendering_wraps_witness :
  let env := mkRoomEnv 2 2 [(1, 1)] ∅ [] in
  get_state_rendering_representation env [] (mkRoomState (-1, -2) [])
  = Some [[[]; ["human"]]; [[]; []]]
  ∧ get_state_rendering_representation env [] (mkRoomState (-1, -2) [])
    = get_state_rendering_representation env [] (mkRoomState (1, 0) []).
Proof.
  intros env. split; [reflexivity|].
  apply (X15_rendering_wraps env [] (-1, -2) []); simpl; lia.
Defined.

(** * More on equality, hashing and transitions *)

Lemma mapM_get_ext (d1 d2 : list (Pos * bool)) (ks : list Pos) :
  mapM (PyDict.get pos_eqb d1) ks = mapM (PyDict.get pos_eqb d2) ks →
  is_Some (mapM (PyDict.get pos_eqb d1) ks) →
  ∀ k, k ∈ ks → PyDict.get pos_eqb d1 k = PyDict.get pos_eqb d2 k.
Proof.
  intros Heq [vals Hvals]. rewrite Hvals in Heq. symmetry in Heq.
  apply mapM_Some_1 in Hvals, Heq. revert Heq.
  induction Hvals as [|k0 v ks vals Hk Hrest IH]; intros Heq k Hin.
  - by apply elem_of_nil in Hin.
  - apply Forall2_cons in Heq as [Hk' Hrest'].
    apply elem_of_cons in Hin as [->|Hin]; [congruence|by apply IH].
Qed.

(** X16 — Within one key set the hashed tuple identifies the state.  For
    two states with well-formed vase dicts over the same vase locations
    (in any insertion order), the tuples handed to [hash] are the same
    exactly when the states are equal by [__eq__]: different states of one
    environment never share a tuple. *)
Theorem X16_hash_key_injective (s1 s2 : RoomState) :
  dict_wf (vase_states s1) → dict_wf (vase_states s2) →
  PyDict.keys (vase_states s1) ≡ₚ PyDict.keys (vase_states s2) →
  hash_key s1 = hash_key s2 ↔ RoomState_eq s1 s2 = true.
Proof.
  intros Hwf1 Hwf2 Hkeys. split.
  - unfold hash_key, get_vals. rewrite <-(sorted_Permutation _ _ Hkeys).
    set (ks := sorted (PyDict.keys (vase_states s1))).
    destruct (get_vals_is_Some (vase_states s1)) as [v1 Hv1].
    destruct (get_vals_is_Some (vase_states s2)) as [v2 Hv2].
    unfold get_vals in Hv1, Hv2.
    rewrite <-(sorted_Permutation _ _ Hkeys) in Hv2. fold ks in Hv1, Hv2.
    rewrite Hv1, Hv2. simpl. intros [= Hx Hy Hvals].
    assert (Inj (=) (=) PyBool) as HinjB by (by intros ?? [= ->]).
    apply (inj (fmap PyBool)) in Hvals. subst v2.
    apply RoomState_eq_iff; [done..|]. split.
    { destruct (agent_pos s1), (agent_pos s2); simpl in *. congruence. }
    apply pos_dict_ext_Permutation; [done..|]. intros k.
    destruct (decide (k ∈ PyDict.keys (vase_states s1))) as [Hin|Hnin].
    + apply (mapM_get_ext _ _ ks); [congruence|by rewrite Hv1|].
      unfold ks, sorted. by rewrite merge_sort_Permutation.
    + rewrite (proj2 (pos_get_None _ k) Hnin). symmetry.
      apply pos_get_None. unfold PyDict.keys in *. by rewrite <-Hkeys.
  - intros [Hpos Hp]%RoomState_eq_iff; [|done..].
    by apply hash_key_Permutation.
Qed.

Lemma X16_hash_key_injective_witness :
  let s1 := mkRoomState (0, 0) [((1, 1), true); ((0, 1), false)] in
  let s2 := mkRoomState (0, 0) [((0, 1), true); ((1, 1), false)] in
  hash_key s1 ≠ hash_key s2.
Proof.
  intros s1 s2 Heq.
  assert (RoomState_eq s1 s2 = true) as Habs.
  { apply (X16_hash_key_injective s1 s2).
    - apply (bool_decide_unpack _). reflexivity.
    - apply (bool_decide_unpack _). reflexivity.
    - apply Permutation_swap.
    - exact Heq. }
  discriminate Habs.
Defined.

Lemma pos_set_Permutation (d1 d2 : list (Pos * bool)) (k : Pos) (v : bool) :
  dict_wf d1 → d1 ≡ₚ d2 → k ∈ d1.*1 →
  PyDict.set pos_eqb d1 k v ≡ₚ PyDict.set pos_eqb d2 k v.
Proof.
  intros Hwf1 Hp Hin.
  assert (dict_wf d2) as Hwf2 by (unfold dict_wf; by rewrite <-Hp).
  assert (k ∈ d2.*1) as Hin2 by (by rewrite <-Hp).
  apply pos_dict_ext_Permutation.
  - unfold dict_wf. by rewrite pos_set_keys.
  - unfold dict_wf. by rewrite pos_set_keys.
  - intros q. destruct (decide (q = k)) as [->|Hne].
    + by rewrite !pos_get_set_eq.
    + rewrite !pos_get_set_ne by done. by apply pos_get_Permutation.
Qed.

(** X17 — Equal states have equal successors.  If two states with
    well-formed vase dicts are equal by [__eq__], then for every action
    [get_next_state] either fails on both or returns successors that are
    again equal by [__eq__], with well-formed vase dicts. *)
Theorem X17_transition_respects_eq (env : RoomEnv) (s1 s2 : RoomState) (a : Z) :
  dict_wf (vase_states s1) → dict_wf (vase_states s2) →
  RoomState_eq s1 s2 = true →
  match get_next_state env s1 a, get_next_state env s2 a with
  | Some s1', Some s2' =>
      RoomState_eq s1' s2' = true
      ∧ dict_wf (vase_states s1') ∧ dict_wf (vase_states s2')
  | None, None => True
  | _, _ => False
  end.
Proof.
  intros Hwf1 Hwf2 [Hpos Hp]%RoomState_eq_iff; [|done..].
  unfold get_next_state, Direction.move_in_direction_number.
  destruct (Direction.get_direction_from_number a) as [d|]; [|done].
  simpl. rewrite <-Hpos.
  set (p' := if in_bounds env (Direction.move_in_direction (agent_pos s1) d)
             then Direction.move_in_direction (agent_pos s1) d
             else agent_pos s1).
  assert (PyDict.contains pos_eqb (vase_states s2) p'
          = PyDict.contains pos_eqb (vase_states s1) p') as ->.
  { apply eq_true_iff_eq. rewrite !pos_contains_elem_of. by rewrite Hp. }
  destruct (PyDict.contains pos_eqb (vase_states s1) p') eqn:Hc.
  - apply pos_contains_elem_of in Hc.
    assert (p' ∈ (vase_states s2).*1) as Hc2 by (by rewrite <-Hp).
    assert (dict_wf (PyDict.set pos_eqb (vase_states s1) p' false)) as Hwf1'
      by (unfold dict_wf; by rewrite pos_set_keys).
    assert (dict_wf (PyDict.set pos_eqb (vase_states s2) p' false)) as Hwf2'
      by (unfold dict_wf; by rewrite pos_set_keys).
    split; [|done]. apply RoomState_eq_iff; [done..|]. split; [done|].
    by apply pos_set_Permutation.
  - split; [|done]. by apply RoomState_eq_iff.
Qed.

Lemma X17_transition_respects_eq_witness :
  let env := mkRoomEnv 2 2 [(1, 1); (0, 1)] ∅ [] in
  let s1 := mkRoomState (0, 0) [((1, 1), true); ((0, 1), true)] in
  let s2 := mkRoomState (0, 0) [((0, 1), true); ((1, 1), true)] in
  match get_next_state env s1 1, get_next_state env s2 1 with
  | Some s1', Some s2' =>
      RoomState_eq s1' s2' = true
      ∧ dict_wf (vase_states s1') ∧ dict_wf (vase_states s2')
  | None, None => True
  | _, _ => False
  end.
Proof.
  intros env s1 s2. apply (X17_transition_respects_eq env s1 s2 1).
  - apply (bool_decide_unpack _). reflexivity.
  - apply (bool_decide_unpack _). reflexivity.
  - reflexivity.
Defined.

(** * Console rendering *)

Lemma canvas_of_length (rows cols : nat) (f : Z → Z → Z) :
  length (canvas_of rows cols f) = rows.
Proof. unfold canvas_of. by rewrite length_fmap, length_seq. Qed.

Lemma canvas_of_row (rows cols : nat) (f : Z → Z → Z) (r : nat) :
  (r < rows)%nat →
  canvas_of rows cols f !! r
  = Some ((λ x, f (Z.of_nat r) (Z.of_nat x)) <$> seq 0 cols).
Proof.
  intros Hr. unfold canvas_of. rewrite list_lookup_fmap.
  by rewrite lookup_seq_lt.
Qed.

Lemma canvas_row_cell (cols : nat) (g : Z → Z) (c : nat) :
  (c < cols)%nat →
  ((λ x, g (Z.of_nat x)) <$> seq 0 cols) !! c = Some (g (Z.of_nat c)).
Proof. intros Hc. rewrite list_lookup_fmap. by rewrite lookup_seq_lt. Qed.

(** A canvas is determined by its cells. *)
Lemma canvas_of_eq (rows cols : nat) (f : Z → Z → Z) (cv : list (list Z)) :
  length cv = rows →
  (∀ r row, cv !! r = Some row →
     length row = cols
     ∧ ∀ c, (c < cols)%nat → row !! c = Some (f (Z.of_nat r) (Z.of_nat c))) →
  cv = canvas_of rows cols f.
Proof.
  intros Hlen Hcells. apply list_eq. intros r.
  destruct (cv !! r) as [row|] eqn:Hrow.
  - assert (r < rows)%nat as Hr by (apply lookup_lt_Some in Hrow; lia).
    rewrite canvas_of_row by done. f_equal.
    destruct (Hcells r row Hrow) as [Hw Hc].
    apply list_eq. intros c. destruct (decide (c < cols)%nat) as [Hlt|Hge].
    + by rewrite Hc, canvas_row_cell.
    + rewrite !lookup_ge_None_2; [done| |lia].
      rewrite length_fmap, length_seq. lia.
  - symmetry. apply lookup_ge_None. rewrite canvas_of_length.
    apply lookup_ge_None in Hrow. lia.
Qed.

Lemma canvas_of_ext (rows cols : nat) (f g : Z → Z → Z) :
  (∀ y x, 0 ≤ y < Z.of_nat rows → 0 ≤ x < Z.of_nat cols → f y x = g y x) →
  canvas_of rows cols f = canvas_of rows cols g.
Proof.
  intros Hfg. apply canvas_of_eq; [apply canvas_of_length|].
  intros r row Hrow.
  assert (r < rows)%nat as Hr.
  { apply lookup_lt_Some in Hrow. by rewrite canvas_of_length in Hrow. }
  rewrite canvas_of_row in Hrow by done. injection Hrow as <-.
  split; [by rewrite length_fmap, length_seq|].
  intros c Hc. rewrite canvas_row_cell by done. f_equal. apply Hfg; lia.
Qed.

Lemma canvas_zeros_of (rows cols : Z) :
  0 ≤ rows → 0 ≤ cols →
  canvas_zeros rows cols
  = Some (canvas_of (Z.to_nat rows) (Z.to_nat cols) (λ _ _, 0)).
Proof.
  intros Hr Hc. unfold canvas_zeros.
  assert ((0 <=? rows) = true) as -> by (by apply Z.leb_le).
  assert ((0 <=? cols) = true) as -> by (by apply Z.leb_le).
  simpl. f_equal. apply canvas_of_eq; [by rewrite length_replicate|].
  intros r row [-> _]%lookup_replicate.
  split; [by rewrite length_replicate|].
  intros c Hc'. by apply lookup_replicate_2.
Qed.

Lemma canvas_fill_row_of (rows cols : nat) (f : Z → Z → Z) (y v : Z) :
  0 ≤ y < Z.of_nat rows →
  canvas_fill_row (canvas_of rows cols f) y v
  = Some (canvas_of rows cols (λ r c, if decide (r = y) then v else f r c)).
Proof.
  intros Hy. unfold canvas_fill_row.
  rewrite canvas_of_length, py_index_in by done. simpl.
  rewrite canvas_of_row by lia. simpl. f_equal.
  rewrite length_fmap, length_seq.
  apply canvas_of_eq; [by rewrite length_insert, canvas_of_length|].
  intros r row. destruct (decide (r = Z.to_nat y)) as [->|Hne].
  - rewrite list_lookup_insert_eq by (rewrite canvas_of_length; lia).
    intros [= <-]. split; [by rewrite length_replicate|].
    intros c Hc. rewrite lookup_replicate_2 by done.
    by rewrite decide_True by lia.
  - rewrite list_lookup_insert_ne by done. intros Hrow.
    assert (r < rows)%nat as Hr.
    { apply lookup_lt_Some in Hrow. by rewrite canvas_of_length in Hrow. }
    rewrite canvas_of_row in Hrow by done. injection Hrow as <-.
    split; [by rewrite length_fmap, length_seq|].
    intros c Hc. rewrite canvas_row_cell by done.
    by rewrite decide_False by lia.
Qed.

Lemma canvas_fill_col_of (rows cols : nat) (f : Z → Z → Z) (x v : Z) :
  0 ≤ x < Z.of_nat cols →
  canvas_fill_col cols (canvas_of rows cols f) x v
  = Some (canvas_of rows cols (λ r c, if decide (c = x) then v else f r c)).
Proof.
  intros Hx. unfold canvas_fill_col. rewrite py_index_in by done. simpl.
  f_equal. apply canvas_of_eq; [by rewrite length_fmap, canvas_of_length|].
  intros r row. rewrite list_lookup_fmap.
  destruct (canvas_of rows cols f !! r) as [row0|] eqn:Hrow0; [|done].
  simpl. intros [= <-].
  assert (r < rows)%nat as Hr.
  { apply lookup_lt_Some in Hrow0. by rewrite canvas_of_length in Hrow0. }
  rewrite canvas_of_row in Hrow0 by done. injection Hrow0 as <-.
  split; [by rewrite length_insert, length_fmap, length_seq|].
  intros c Hc. destruct (decide (c = Z.to_nat x)) as [->|Hne].
  - rewrite list_lookup_insert_eq by (rewrite length_fmap, length_seq; lia).
    by rewrite decide_True by lia.
  - rewrite list_lookup_insert_ne by done. rewrite canvas_row_cell by done.
    by rewrite decide_False by lia.
Qed.

Lemma canvas_set_of (rows cols : nat) (f : Z → Z → Z) (y x v : Z) :
  0 ≤ y < Z.of_nat rows → 0 ≤ x < Z.of_nat cols →
  canvas_set cols (canvas_of rows cols f) y x v
  = Some (canvas_of rows cols
            (λ r c, if decide (r = y ∧ c = x) then v else f r c)).
Proof.
  intros Hy Hx. unfold canvas_set.
  rewrite canvas_of_length, !py_index_in by done. simpl.
  rewrite canvas_of_row by lia. simpl. f_equal.
  apply canvas_of_eq; [by rewrite length_insert, canvas_of_length|].
  intros r row. destruct (decide (r = Z.to_nat y)) as [->|Hne].
  - rewrite list_lookup_insert_eq by (rewrite canvas_of_length; lia).
    intros [= <-]. split; [by rewrite length_insert, length_fmap, length_seq|].
    intros c Hc. destruct (decide (c = Z.to_nat x)) as [->|Hne].
    + rewrite list_lookup_insert_eq by (rewrite length_fmap, length_seq; lia).
      by rewrite decide_True by lia.
    + rewrite list_lookup_insert_ne by done. rewrite canvas_row_cell by done.
      by rewrite decide_False by lia.
  - rewrite list_lookup_insert_ne by done. intros Hrow.
    assert (r < rows)%nat as Hr.
    { apply lookup_lt_Some in Hrow. by rewrite canvas_of_length in Hrow. }
    rewrite canvas_of_row in Hrow by done. injection Hrow as <-.
    split; [by rewrite length_fmap, length_seq|].
    intros c Hc. rewrite canvas_row_cell by done.
    by rewrite decide_False by lia.
Qed.

Lemma elem_of_py_range3 (start stop step k : Z) :
  0 < step →
  k ∈ py_range3 start stop step
  ↔ start ≤ k < stop ∧ (k - start) `mod` step = 0.
Proof.
  intros Hstep. unfold py_range3. rewrite list_elem_of_fmap.
  setoid_rewrite elem_of_py_range. split.
  - intros (i & -> & Hi).
    pose proof (Z.mul_div_le (stop - start + step - 1) step Hstep).
    split; [nia|].
    replace (start + step * i - start) with (i * step) by lia.
    apply Z_mod_mult.
  - intros [Hk Hmod]. exists ((k - start) `div` step).
    pose proof (Z.div_mod (k - start) step ltac:(lia)) as Hdm.
    rewrite Hmod in Hdm. split; [lia|]. split.
    + apply Z.div_pos; lia.
    + apply Z.div_lt_upper_bound; [done|].
      pose proof (Z.mul_succ_div_gt (stop - start + step - 1) step Hstep).
      nia.
Qed.

Lemma rows_loop (rows cols : nat) (v : Z) (l : list Z) (f : Z → Z → Z) :
  Forall (λ y, 0 ≤ y < Z.of_nat rows) l →
  for_each (λ canvas y, canvas_fill_row canvas y v) l (canvas_of rows cols f)
  = Some (canvas_of rows cols (λ r c, if decide (r ∈ l) then v else f r c)).
Proof.
  intros Hl. revert f. induction Hl as [|y l Hy Hl IH]; intros f.
  - reflexivity.
  - simpl. rewrite canvas_fill_row_of by done. simpl. rewrite IH. f_equal.
    apply canvas_of_ext. intros r c _ _.
    destruct (decide (r ∈ l)) as [Hin|Hnin].
    + rewrite decide_True; [done|by right].
    + destruct (decide (r = y)) as [->|Hne].
      * rewrite decide_True; [done|left].
      * rewrite decide_False; [done|]. by intros [?|?]%elem_of_cons.
Qed.

Lemma cols_loop (rows cols : nat) (v : Z) (l : list Z) (f : Z → Z → Z) :
  Forall (λ x, 0 ≤ x < Z.of_nat cols) l →
  for_each (λ canvas x, canvas_fill_col cols canvas x v) l
    (canvas_of rows cols f)
  = Some (canvas_of rows cols (λ r c, if decide (c ∈ l) then v else f r c)).
Proof.
  intros Hl. revert f. induction Hl as [|x l Hx Hl IH]; intros f.
  - reflexivity.
  - simpl. rewrite canvas_fill_col_of by done. simpl. rewrite IH. f_equal.
    apply canvas_of_ext. intros r c _ _.
    destruct (decide (c ∈ l)) as [Hin|Hnin].
    + rewrite decide_True; [done|by right].
    + destruct (decide (c = x)) as [->|Hne].
      * rewrite decide_True; [done|left].
      * rewrite decide_False; [done|]. by intros [?|?]%elem_of_cons.
Qed.

(** The canvas cell of a vase determines the vase. *)
Lemma vase_cell_iff (r c x y : Z) :
  r = 2 * y ∧ c = 3 * x + 1
  ↔ r `mod` 2 = 0 ∧ c `mod` 3 = 1 ∧ (c `div` 3, r `div` 2) = (x, y).
Proof.
  pose proof (Z.div_mod r 2 ltac:(lia)).
  pose proof (Z.div_mod c 3 ltac:(lia)).
  pose proof (Z.mod_pos_bound r 2 ltac:(lia)).
  pose proof (Z.mod_pos_bound c 3 ltac:(lia)).
  split.
  - intros [-> ->].
    assert ((2 * y) `mod` 2 = 0) as Hr
      by (rewrite Z.mul_comm; apply Z_mod_mult).
    assert ((3 * x + 1) `mod` 3 = 1) as Hc
      by (rewrite Z.add_comm, Z.mul_comm, Z_mod_plus_full; done).
    split; [done|]. split; [done|]. f_equal; lia.
  - intros (Hr & Hc & [= <- <-]). lia.
Qed.

Lemma agent_cell_iff (r c x y : Z) :
  r = 2 * y ∧ c = 3 * x + 2
  ↔ r `mod` 2 = 0 ∧ c `mod` 3 = 2 ∧ (x, y) = (c `div` 3, r `div` 2).
Proof.
  pose proof (Z.div_mod r 2 ltac:(lia)).
  pose proof (Z.div_mod c 3 ltac:(lia)).
  pose proof (Z.mod_pos_bound r 2 ltac:(lia)).
  pose proof (Z.mod_pos_bound c 3 ltac:(lia)).
  split.
  - intros [-> ->].
    assert ((2 * y) `mod` 2 = 0) as Hr
      by (rewrite Z.mul_comm; apply Z_mod_mult).
    assert ((3 * x + 2) `mod` 3 = 2) as Hc
      by (rewrite Z.add_comm, Z.mul_comm, Z_mod_plus_full; done).
    split; [done|]. split; [done|]. f_equal; lia.
  - intros (Hr & Hc & [= -> ->]). lia.
Qed.

Lemma vases_loop (env : RoomEnv) (rows cols : nat) (d : list (Pos * bool))
    (l : list Pos) (f : Z → Z → Z) :
  Forall (λ p, 0 ≤ 2 * p.2 < Z.of_nat rows ∧ 0 ≤ 3 * p.1 + 1 < Z.of_nat cols
               ∧ is_Some (PyDict.get pos_eqb d p)) l →
  for_each
    (λ canvas pos,
       intact ← PyDict.get pos_eqb d pos;
       canvas_set cols canvas (2 * pos.2) (3 * pos.1 + 1)
         (if intact : bool then 4 else 6))
    l (canvas_of rows cols f)
  = Some (canvas_of rows cols
            (λ r c,
               if decide (r `mod` 2 = 0 ∧ c `mod` 3 = 1
                          ∧ (c `div` 3, r `div` 2) ∈ l)
               then match PyDict.get pos_eqb d (c `div` 3, r `div` 2) with
                    | Some false => 6
                    | _ => 4
                    end
               else f r c)).
Proof.
  intros Hl. revert f. induction Hl as [|p l (Hy & Hx & [b Hb]) Hl IH]; intros f.
  - simpl. f_equal. apply canvas_of_ext. intros r c _ _.
    rewrite decide_False; [done|]. intros (_ & _ & Hin).
    by apply elem_of_nil in Hin.
  - cbn [for_each]. rewrite Hb. cbn [mbind option_bind].
    rewrite canvas_set_of by done. cbn [mbind option_bind].
    rewrite IH. f_equal. apply canvas_of_ext. intros r c _ _.
    pose proof (vase_cell_iff r c p.1 p.2) as Hcell.
    pose proof (elem_of_cons l (c `div` 3, r `div` 2) p) as Hcons.
    destruct p as [x y]. simpl in Hcell.
    repeat case_decide; try done; try (exfalso; tauto).
    assert ((c `div` 3, r `div` 2) = (x, y)) as -> by tauto.
    rewrite Hb. by destruct b.
Qed.

Lemma for_each_fail {A S} (body : S → A → option S) (l : list A) (s : S) :
  (∃ a, a ∈ l ∧ ∀ s', body s' a = None) → for_each body l s = None.
Proof.
  intros (a & Hin & Hfail). revert s.
  induction l as [|a' l IH]; intros s; [by apply elem_of_nil in Hin|].
  simpl. apply elem_of_cons in Hin as [<-|Hin].
  - by rewrite Hfail.
  - destruct (body s a') as [s'|]; [|done]. simpl. by apply IH.
Qed.

Lemma picture_not_purple (env : RoomEnv) (state : RoomState) (y x : Z) :
  picture env state y x ∈ [0; 1; 2; 3; 4; 6].
Proof.
  unfold picture. repeat case_decide;
    try destruct (PyDict.get pos_eqb _ _) as [[]|];
    repeat (first [apply list_elem_of_here | apply list_elem_of_further]).
Qed.

(** X18 — What [print_state] draws.  When the agent and the vase locations
    are inside the grid and every vase location has a flag in the state,
    the canvas has [2*height - 1] rows and [3*width + 1] columns; row [2y]
    holds, for grid cell [(x, y)], the vase mark in column [3x+1] (4 for
    an intact vase, 6 for a broken one) and the agent mark 3 in column
    [3x+2]; every third column is the border 2, every odd row elsewhere the
    border 1, and all other cells are 0.  The text printed is that canvas,
    line by line; the value 5 never occurs. *)
Theorem X18_print_state_picture (env : RoomEnv) (state : RoomState) :
  in_bounds env (agent_pos state) = true →
  Forall (λ p, in_bounds env p = true) (vase_locations env) →
  Forall (λ p, is_Some (PyDict.get pos_eqb (vase_states state) p))
    (vase_locations env) →
  let canvas :=
    canvas_of (Z.to_nat (2 * height env - 1)) (Z.to_nat (3 * width env + 1))
      (picture env state) in
  print_state_canvas env state = Some canvas
  ∧ print_state env state
    = Some (String.concat ""
              ((λ line, String.concat "" (glyph <$> line) +:+ newline)
                 <$> canvas))
  ∧ (∀ y x, picture env state y x ∈ [0; 1; 2; 3; 4; 6]).
Proof.
  intros Hagent Hvases Hflags canvas.
  assert (print_state_canvas env state = Some canvas) as Hcanvas.
  { apply in_bounds_iff in Hagent as [Hax Hay].
    unfold print_state_canvas. cbv zeta.
    rewrite canvas_zeros_of by lia. cbn [mbind option_bind].
    rewrite rows_loop.
    2:{ apply Forall_forall. intros y Hy%elem_of_py_range3; lia. }
    cbn [mbind option_bind]. rewrite cols_loop.
    2:{ apply Forall_forall. intros x Hx%elem_of_py_range3; lia. }
    cbn [mbind option_bind]. rewrite (vases_loop env).
    2:{ rewrite Forall_forall in Hvases, Hflags. apply Forall_forall.
        intros p Hp. pose proof (Hvases p Hp) as [? ?]%in_bounds_iff.
        split; [lia|]. split; [lia|]. by apply Hflags. }
    cbn [mbind option_bind]. rewrite canvas_set_of by lia.
    f_equal. apply canvas_of_ext. intros r c Hr Hc. unfold picture.
    pose proof (agent_cell_iff r c (agent_pos state).1 (agent_pos state).2)
      as Hcell.
    pose proof (elem_of_py_range3 0 (3 * width env + 1) 3 c ltac:(lia)) as Hcol.
    pose proof (elem_of_py_range3 1 (2 * height env - 1) 2 r ltac:(lia)) as Hrow.
    rewrite Z.sub_0_r in Hcol.
    assert ((r - 1) `mod` 2 = 0 ↔ r `mod` 2 = 1) as Hodd.
    { pose proof (Z.div_mod r 2 ltac:(lia)).
      pose proof (Z.div_mod (r - 1) 2 ltac:(lia)).
      pose proof (Z.mod_pos_bound r 2 ltac:(lia)).
      pose proof (Z.mod_pos_bound (r - 1) 2 ltac:(lia)). lia. }
    assert (r `mod` 2 = 0 ∨ r `mod` 2 = 1) as Hpar
      by (pose proof (Z.mod_pos_bound r 2 ltac:(lia)); lia).
    assert (r `mod` 2 = 1 → 1 ≤ r) as Hr1
      by (intros ?; destruct (decide (r = 0)) as [->|]; [done|lia]).
    assert (c ∈ py_range3 0 (3 * width env + 1) 3 ↔ c `mod` 3 = 0) as Hcol'.
    { rewrite Hcol. split; [tauto|]. intros ?. split; [lia|done]. }
    assert (r ∈ py_range3 1 (2 * height env - 1) 2 ↔ r `mod` 2 = 1) as Hrow'.
    { rewrite Hrow, Hodd. split; [tauto|]. intros ?. split; [lia|done]. }
    clear Hcol Hrow Hodd Hr1.
    destruct (agent_pos state) as [ax ay]. simpl in *.
    repeat case_decide; try done; exfalso; intuition lia. }
  split; [done|]. split.
  - unfold print_state. by rewrite Hcanvas.
  - apply picture_not_purple.
Qed.

Lemma X18_print_state_picture_witness :
  let env := mkRoomEnv 2 2 [(1, 1); (0, 1)] ∅ [] in
  let state := mkRoomState (0, 0) [((1, 1), true); ((0, 1), false)] in
  print_state_canvas env state
  = Some [[2; 0; 3; 2; 0; 0; 2]; [2; 1; 1; 2; 1; 1; 2]; [2; 6; 0; 2; 4; 0; 2]]
  ∧ print_state_canvas env state
    = Some (canvas_of 3 7 (picture env state)).
Proof.
  intros env state. split; [reflexivity|].
  apply (X18_print_state_picture env state).
  - reflexivity.
  - apply (bool_decide_unpack _). reflexivity.
  - repeat (apply Forall_cons; split; [by eexists|]). apply Forall_nil_2.
Defined.

(** X19 — When [print_state] fails.  With a height of zero or less, or a
    negative width, the canvas cannot be created ([ValueError]); and when a
    vase location of the environment has no flag in the state's vase dict
    the lookup raises [KeyError].  In both cases nothing is printed. *)
Theorem X19_print_state_errors (env : RoomEnv) (state : RoomState) :
  (height env ≤ 0 ∨ width env < 0 → print_state env state = None)
  ∧ ((∃ p, p ∈ vase_locations env
           ∧ PyDict.get pos_eqb (vase_states state) p = None) →
     print_state env state = None).
Proof.
  split.
  - intros Hdim. unfold print_state, print_state_canvas, canvas_zeros. cbv zeta.
    destruct (Z.leb_spec 0 (2 * height env - 1)),
      (Z.leb_spec 0 (3 * width env + 1)); simpl; try done. lia.
  - intros (p & Hin & Hnone). unfold print_state, print_state_canvas. cbv zeta.
    destruct (canvas_zeros _ _) as [c0|]; [|done]. cbn [mbind option_bind].
    destruct (for_each _ (py_range3 1 _ 2) c0) as [c1|]; [|done].
    cbn [mbind option_bind].
    destruct (for_each _ (py_range3 0 _ 3) c1) as [c2|]; [|done].
    cbn [mbind option_bind].
    rewrite (for_each_fail _ (vase_locations env) c2); [done|].
    exists p. split; [done|]. intros s'. by rewrite Hnone.
Qed.

Lemma X19_print_state_errors_witness :
  print_state (mkRoomEnv 0 2 [] ∅ []) (mkRoomState (0, 0) []) = None
  ∧ print_state (mkRoomEnv 2 2 [(1, 1)] ∅ []) (mkRoomState (0, 0) []) = None.
Proof.
  split.
  - apply (proj1 (X19_print_state_errors (mkRoomEnv 0 2 [] ∅ []) _)).
    left. simpl. lia.
  - apply (proj2 (X19_print_state_errors (mkRoomEnv 2 2 [(1, 1)] ∅ []) _)).
    exists (1, 1). split; [apply list_elem_of_here|reflexivity].
Defined.
